(** * FileHound: a shallow embedding of [src/filehound.ts]

    The development follows the TypeScript source method by method.  A
    [FileHound] instance is a record that is threaded through the builder
    methods; the file-system collaborator ([file-js]) is a finite tree of
    [File] entries whose attributes are the answers of the collaborator's
    queries; event emission and directory listing are recorded in traces. *)

From Stdlib Require Import List String Ascii ZArith Bool Arith Lia Permutation.
Import ListNotations.
Open Scope string_scope.
Open Scope list_scope.

(** ** Errors and results *)

Inductive error : Type :=
| IOError (path : string)      (* a directory listing failed *)
| TypeError (msg : string).    (* raised by the JavaScript runtime *)

Definition result (A : Type) : Type := (error + A)%type.

Definition Ok {A : Type} (a : A) : result A := inr a.
Definition Err {A : Type} (e : error) : result A := inl e.

(** ** The file-entry collaborator ([file-js])

    Every field is the answer of one query used by the source:
    [getName()], [getDepthSync()], [isHiddenSync()], [isDirectorySync()],
    [getPathExtension()], and [getFiles()] / [getFilesSync()], which either
    fails or yields the entries of the directory. *)

Unset Elimination Schemes.
Inductive File : Type :=
  mkFile (name : string) (depth : Z) (hidden directory : bool) (extension : string)
         (listing : error + list File).
Set Elimination Schemes.

Definition getName (f : File) : string :=
  match f with mkFile n _ _ _ _ _ => n end.
Definition getDepthSync (f : File) : Z :=
  match f with mkFile _ d _ _ _ _ => d end.
Definition isHiddenSync (f : File) : bool :=
  match f with mkFile _ _ h _ _ _ => h end.
Definition isDirectorySync (f : File) : bool :=
  match f with mkFile _ _ _ d _ _ => d end.
Definition getPathExtension (f : File) : string :=
  match f with mkFile _ _ _ _ e _ => e end.
Definition getFiles (f : File) : result (list File) :=
  match f with mkFile _ _ _ _ _ l => l end.

(** ** Helpers of the source file *)

Definition flatten {A : Type} (a b : list A) : list A := a ++ b.

Definition toFilename (file : File) : string := getName file.

(** [_.startsWith(ext, '.')] and [ext.slice(1)]. *)
Definition startsWithDot (ext : string) : bool :=
  match ext with
  | String c _ => Ascii.eqb c "."%char
  | EmptyString => false
  end.

Definition slice1 (ext : string) : string :=
  match ext with
  | String _ rest => rest
  | EmptyString => EmptyString
  end.

Definition cleanExtension (ext : string) : string :=
  if startsWithDot ext then slice1 ext else ext.

(** [_.includes(extensions, x)] on an array of strings. *)
Definition includes (xs : list string) (x : string) : bool :=
  existsb (String.eqb x) xs.

(** ** [./functions]: [compose] and [negate] *)

(** Modelled from the spec: [compose] and [negate] of [./functions], which
    [newMatcher] calls and which are not part of the available sources.
    [compose] runs the predicates in order over a running conjunction that
    starts at [true]; [negate] inverts the answer of a predicate. *)
Fixpoint composeFrom (acc : bool) (fs : list (File -> bool)) (file : File) : bool :=
  match fs with
  | [] => acc
  | f :: rest => composeFrom (acc && f file) rest file
  end.

Definition compose (fs : list (File -> bool)) : File -> bool :=
  composeFrom true fs.

Definition negate (fn : File -> bool) : File -> bool :=
  fun file => negb (fn file).

(** ** The instance *)

Record FileHound : Type := mkFileHound {
  filters : list (File -> bool);
  searchPaths : list string;
  ignoreDirs : bool;
  isMatch : File -> bool;
  sync : bool;
  directoriesOnly : bool;
  negateFilters : bool;          (* [undefined] until [not()]; read only as a truth value *)
  maxDepth : option Z            (* [undefined] until [depth(n)] *)
}.

(** [new FileHound()]; [cwd] is [process.cwd()], [_.noop] answers
    [undefined], which every use reads as false. *)
Definition create (cwd : string) : FileHound :=
  {| filters := [];
     searchPaths := [cwd];
     ignoreDirs := false;
     isMatch := fun _ => false;
     sync := false;
     directoriesOnly := false;
     negateFilters := false;
     maxDepth := None |}.

Definition addFilter (filter : File -> bool) (fh : FileHound) : FileHound :=
  {| filters := filters fh ++ [filter];
     searchPaths := searchPaths fh;
     ignoreDirs := ignoreDirs fh;
     isMatch := isMatch fh;
     sync := sync fh;
     directoriesOnly := directoriesOnly fh;
     negateFilters := negateFilters fh;
     maxDepth := maxDepth fh |}.

Definition not_ (fh : FileHound) : FileHound :=
  {| filters := filters fh;
     searchPaths := searchPaths fh;
     ignoreDirs := ignoreDirs fh;
     isMatch := isMatch fh;
     sync := sync fh;
     directoriesOnly := directoriesOnly fh;
     negateFilters := true;
     maxDepth := maxDepth fh |}.

Definition ignoreHiddenDirectories (fh : FileHound) : FileHound :=
  {| filters := filters fh;
     searchPaths := searchPaths fh;
     ignoreDirs := true;
     isMatch := isMatch fh;
     sync := sync fh;
     directoriesOnly := directoriesOnly fh;
     negateFilters := negateFilters fh;
     maxDepth := maxDepth fh |}.

Definition directory (fh : FileHound) : FileHound :=
  {| filters := filters fh;
     searchPaths := searchPaths fh;
     ignoreDirs := ignoreDirs fh;
     isMatch := isMatch fh;
     sync := sync fh;
     directoriesOnly := true;
     negateFilters := negateFilters fh;
     maxDepth := maxDepth fh |}.

Definition depth (d : Z) (fh : FileHound) : FileHound :=
  {| filters := filters fh;
     searchPaths := searchPaths fh;
     ignoreDirs := ignoreDirs fh;
     isMatch := isMatch fh;
     sync := sync fh;
     directoriesOnly := directoriesOnly fh;
     negateFilters := negateFilters fh;
     maxDepth := Some d |}.

Definition setSearchPaths (ps : list string) (fh : FileHound) : FileHound :=
  {| filters := filters fh;
     searchPaths := ps;
     ignoreDirs := ignoreDirs fh;
     isMatch := isMatch fh;
     sync := sync fh;
     directoriesOnly := directoriesOnly fh;
     negateFilters := negateFilters fh;
     maxDepth := maxDepth fh |}.

Definition setSync (fh : FileHound) : FileHound :=
  {| filters := filters fh;
     searchPaths := searchPaths fh;
     ignoreDirs := ignoreDirs fh;
     isMatch := isMatch fh;
     sync := true;
     directoriesOnly := directoriesOnly fh;
     negateFilters := negateFilters fh;
     maxDepth := maxDepth fh |}.

(** [ext(...args)]: [args] is the argument list after [from], which flattens
    one level of nesting. *)
Definition ext (extensions : list string) (fh : FileHound) : FileHound :=
  let cleaned := map cleanExtension extensions in
  addFilter (fun file => includes cleaned (getPathExtension file)) fh.

Definition ignoreHiddenFiles (fh : FileHound) : FileHound :=
  addFilter (fun file => negb (isHiddenSync file)) fh.

(** ** Matching *)

Definition newMatcher (fh : FileHound) : File -> bool :=
  let isMatch := compose (filters fh) in
  if negateFilters fh then negate isMatch else isMatch.

Definition initFilters (fh : FileHound) : FileHound :=
  {| filters := filters fh;
     searchPaths := searchPaths fh;
     ignoreDirs := ignoreDirs fh;
     isMatch := newMatcher fh;
     sync := sync fh;
     directoriesOnly := directoriesOnly fh;
     negateFilters := negateFilters fh;
     maxDepth := maxDepth fh |}.

(** ** Pruning *)

Definition atMaxDepth (fh : FileHound) (root dir : File) : bool :=
  let depth := (getDepthSync dir - getDepthSync root)%Z in
  match maxDepth fh with
  | Some m => (m <? depth)%Z
  | None => false
  end.

Definition shouldFilterDirectory (fh : FileHound) (root dir : File) : bool :=
  atMaxDepth fh root dir || (ignoreDirs fh && isHiddenSync dir).

(** ** The walk

    [search] reads directories and pushes onto the [trackedPaths] array that
    its caller owns.  Both are kept in a [walk] state: the array, and the
    log of the observable steps (which directory was listed through which
    primitive, and which entries the matcher was run on); a step names its
    entry by [getName()], the path of the entry. *)

Inductive effect : Type :=
| ListSync (dir : string)        (* [dir.getFilesSync()] *)
| ListAsync (dir : string)       (* [dir.getFiles()] *)
| Evaluate (entry : string).     (* [this.isMatch(entry)] *)

Definition evaluations (files : list File) : list effect :=
  map (fun file => Evaluate (getName file)) files.

Record walk : Type := mkWalk {
  trackedPaths : list File;
  effects : list effect
}.

Definition emptyWalk : walk := {| trackedPaths := []; effects := [] |}.

Definition push (file : File) (w : walk) : walk :=
  {| trackedPaths := trackedPaths w ++ [file]; effects := effects w |}.

Definition record (es : list effect) (w : walk) : walk :=
  {| trackedPaths := trackedPaths w; effects := effects w ++ es |}.

(** The listing primitive chosen by [this.sync ? getFilesSync : getFiles]. *)
Definition listEffect (fh : FileHound) (dir : File) : effect :=
  if sync fh then ListSync (getName dir) else ListAsync (getName dir).

(** [search(root, path, trackedPaths)].  The entries of a listing are mapped
    left to right; a failure of a listing or of a sub-walk ends the walk with
    that error.

    With the synchronous listing this is the walk of the source step by
    step.  With the asynchronous listing the sub-walks of one listing run
    side by side: their results are merged in listing order, as here, but
    the order in which they record directories, and which of several
    failures rejects the walk, follow the arrival of the listings.  For the
    asynchronous listing the walk below is therefore one of the possible
    runs, and only what does not depend on that order is stated of it:
    whether the walk fulfils, the answer of a walk that fulfils, and the
    directories it records up to their order. *)
Fixpoint search (fh : FileHound) (root path : File) (w : walk) {struct path}
  : result (list File) * walk :=
  if shouldFilterDirectory fh root path then (Ok [], w)
  else
    match path with
    | mkFile _ _ _ _ _ (inl e) => (Err e, record [listEffect fh path] w)
    | mkFile _ _ _ _ _ (inr files) =>
        let mapped :=
          (fix each (fs : list File) (w : walk) {struct fs}
             : result (list (list File)) * walk :=
             match fs with
             | [] => (Ok [], w)
             | file :: rest =>
                 let '(r, w1) :=
                   if isDirectorySync file then
                     search fh root file
                       (if negb (shouldFilterDirectory fh root file)
                        then push file w else w)
                   else (Ok [file], w) in
                 match r with
                 | inl e => (Err e, w1)
                 | inr here =>
                     let '(r2, w2) := each rest w1 in
                     match r2 with
                     | inl e => (Err e, w2)
                     | inr others => (Ok (here :: others), w2)
                     end
                 end
             end) files (record [listEffect fh path] w) in
        match mapped with
        | (inl e, w1) => (Err e, w1)
        | (inr parts, w1) =>
            let all := fold_left flatten parts [] in
            (Ok (filter (isMatch fh) all), record (evaluations all) w1)
        end
    end.

(** The map over one listing, as a function of its own. *)
Definition visit (fh : FileHound) (root file : File) (w : walk)
  : result (list File) * walk :=
  if isDirectorySync file then
    search fh root file
      (if negb (shouldFilterDirectory fh root file) then push file w else w)
  else (Ok [file], w).

Fixpoint each (fh : FileHound) (root : File) (fs : list File) (w : walk)
  : result (list (list File)) * walk :=
  match fs with
  | [] => (Ok [], w)
  | file :: rest =>
      let '(r, w1) := visit fh root file w in
      match r with
      | inl e => (Err e, w1)
      | inr here =>
          let '(r2, w2) := each fh root rest w1 in
          match r2 with
          | inl e => (Err e, w2)
          | inr others => (Ok (here :: others), w2)
          end
      end
  end.

(** ** Root paths *)

(** One argument of a variadic method: a string, or an array of strings. *)
Inductive arg : Type :=
| One (s : string)
| Many (ss : list string).

(** Modelled from the spec: [from] of [./arrays] flattens the variadic,
    possibly nested argument list into one list; [copy] of [./arrays]
    returns an array with the same elements. *)
Definition from (args : list arg) : list string :=
  flat_map (fun a => match a with One s => [s] | Many ss => ss end) args.

Definition copy {A : Type} (xs : list A) : list A := xs.

(** [_.uniq]: walks the array and keeps a value when the result built so far
    does not include it. *)
Definition uniqStep (res : list string) (x : string) : list string :=
  if includes res x then res else res ++ [x].

Definition uniq (xs : list string) : list string :=
  fold_left uniqStep xs [].

(** [path.normalize] of the POSIX flavour of Node's [path] module. *)
Fixpoint splitFrom (cur : string) (s : string) : list string :=
  match s with
  | EmptyString => [cur]
  | String c rest =>
      if Ascii.eqb c "/"%char then cur :: splitFrom EmptyString rest
      else splitFrom (String.append cur (String c EmptyString)) rest
  end.

Definition split (s : string) : list string := splitFrom EmptyString s.

(** [normalizeString]: the stack of kept segments is held in reverse. *)
Fixpoint normalizeSegments (allowAboveRoot : bool) (stack : list string)
    (segs : list string) : list string :=
  match segs with
  | [] => rev stack
  | seg :: rest =>
      if String.eqb seg "" || String.eqb seg "." then
        normalizeSegments allowAboveRoot stack rest
      else if String.eqb seg ".." then
        match stack with
        | top :: below =>
            if String.eqb top ".."
            then normalizeSegments allowAboveRoot (seg :: stack) rest
            else normalizeSegments allowAboveRoot below rest
        | [] =>
            if allowAboveRoot
            then normalizeSegments allowAboveRoot [seg] rest
            else normalizeSegments allowAboveRoot [] rest
        end
      else normalizeSegments allowAboveRoot (seg :: stack) rest
  end.

Definition endsWithSlash (s : string) : bool :=
  match rev (split s) with
  | last :: _ :: _ => String.eqb last ""
  | _ => false
  end.

Definition normalize (p : string) : string :=
  if String.eqb p "" then "."
  else
    let isAbsolute := match p with String c _ => Ascii.eqb c "/"%char | _ => false end in
    let trailingSeparator := endsWithSlash p in
    let body := String.concat "/" (normalizeSegments (negb isAbsolute) [] (split p)) in
    if String.eqb body "" then
      if isAbsolute then "/" else if trailingSeparator then "./" else "."
    else
      let body := if trailingSeparator then String.append body "/" else body in
      if isAbsolute then String.append "/" body else body.

(** [paths(...args)] *)
Definition paths (args : list arg) (fh : FileHound) : FileHound :=
  setSearchPaths (map normalize (uniq (from args))) fh.

Definition path (p : string) (fh : FileHound) : FileHound :=
  paths [One p] fh.

(** ** Notifications *)

Inductive notification : Type :=
| Match (name : string)
| Error (e : error)
| End.

Definition isEnd (n : notification) : bool :=
  match n with End => true | _ => false end.

(** ** Searching *)

Section Search.

(** [File.create(dir)]: the entry the file system holds at a path. *)
Variable fileCreate : string -> File.

(** [reducePaths] of [./files], which is not part of the available
    sources; nothing is assumed about it. *)
Variable reducePaths : list string -> list string.

Definition getSearchPaths (fh : FileHound) : list string :=
  let paths :=
    match maxDepth fh with
    | Some _ => searchPaths fh
    | None => reducePaths (searchPaths fh)
    end in
  copy paths.

(** [searchSync(dir)]: the instance afterwards, the value returned or the
    error thrown, and the steps performed. *)
Definition searchSync (fh : FileHound) (dir : string)
  : FileHound * result (list File) * list effect :=
  let fh := setSync fh in
  let root := fileCreate dir in
  let '(files, w) := search fh root root emptyWalk in
  match files with
  | inl e => (fh, Err e, effects w)
  | inr files =>
      if directoriesOnly fh
      then (fh, Ok (filter (isMatch fh) (trackedPaths w)),
            effects w ++ evaluations (trackedPaths w))
      else (fh, Ok files, effects w)
  end.

(** What one call of [searchAsync(dir)] settles to: the value or the error
    of the promise, the notifications emitted when it settles, and the
    steps performed. *)
Record settled : Type := mkSettled {
  outcome : result (list File);
  emitted : list notification;
  steps : list effect
}.

Definition notAFunction : error := TypeError "pending.then is not a function".

(** [searchAsync(dir)].  [search] answers a plain array when the root is
    pruned and when the synchronous listing is in use; an array has no
    [then], so the call throws.  In directories-only mode the answer holds
    the recorded directories in the order of the run that [search] gives;
    another arrival of the listings rearranges it. *)
Definition searchAsync (fh : FileHound) (dir : string) : settled :=
  let root := fileCreate dir in
  let '(pending, w) := search fh root root emptyWalk in
  match pending with
  | inl e => mkSettled (Err e) [] (effects w)
  | inr files =>
      if shouldFilterDirectory fh root root || sync fh
      then mkSettled (Err notAFunction) [] (effects w)
      else if directoriesOnly fh
      then mkSettled (Ok (filter (isMatch fh) (trackedPaths w))) []
                     (effects w ++ evaluations (trackedPaths w))
      else mkSettled (Ok files) (map (fun file => Match (getName file)) files)
                     (effects w)
  end.

(** [Array.prototype.map] with [searchSync]: roots are searched one after
    the other; the first error ends the loop. *)
Fixpoint mapSearchSync (fh : FileHound) (dirs : list string)
  : FileHound * result (list (list File)) * list effect :=
  match dirs with
  | [] => (fh, Ok [], [])
  | dir :: rest =>
      let '(fh1, r, es) := searchSync fh dir in
      match r with
      | inl e => (fh1, Err e, es)
      | inr files =>
          let '(fh2, r2, es2) := mapSearchSync fh1 rest in
          match r2 with
          | inl e => (fh2, Err e, es ++ es2)
          | inr others => (fh2, Ok (files :: others), es ++ es2)
          end
      end
  end.

Definition emptyReduce : error :=
  TypeError "Reduce of empty array with no initial value".

(** [xs.reduce(flatten)] without an initial value. *)
Definition reduceFlatten {A : Type} (xs : list (list A)) : result (list A) :=
  match xs with
  | [] => Err emptyReduce
  | first :: rest => Ok (fold_left flatten rest first)
  end.

(** [findSync()] *)
Definition findSync (fh : FileHound)
  : FileHound * result (list string) * list effect :=
  let fh := initFilters fh in
  let '(fh1, r, es) := mapSearchSync fh (getSearchPaths fh) in
  match r with
  | inl e => (fh1, Err e, es)
  | inr perRoot =>
      match reduceFlatten perRoot with
      | inl e => (fh1, Err e, es)
      | inr files => (fh1, Ok (map toFilename files), es)
      end
  end.

(** *** [find()]

    [Promise.map] starts one [searchAsync] per root; the walks settle in
    an order the file system decides.  [schedule] is that order, a list of
    root indices.  A walk that fulfils emits its notifications when it
    settles; the first walk that rejects rejects the whole chain, whose
    [catch] and [finally] handlers then run; the walks still running are
    not cancelled and settle afterwards.  A root that is never searched,
    because the [searchAsync] of an earlier root threw before it was
    started, does not occur in [schedule]. *)

Definition notIterable : error :=
  TypeError "expecting an array or an iterable object but got [object Null]".

Fixpoint settleAll (outs : list settled) (schedule : list nat)
  : list notification * option error * list nat :=
  match schedule with
  | [] => ([], None, [])
  | i :: rest =>
      match nth_error outs i with
      | None => settleAll outs rest
      | Some o =>
          match outcome o with
          | inl e => ([], Some e, rest)
          | inr _ =>
              let '(ns, failure, later) := settleAll outs rest in
              (emitted o ++ ns, failure, later)
          end
      end
  end.

Definition emittedAt (outs : list settled) (i : nat) : list notification :=
  match nth_error outs i with
  | Some o => emitted o
  | None => []
  end.

Definition fulfilled (outs : list settled) : list (list File) :=
  flat_map (fun o => match outcome o with inr fs => [fs] | inl _ => [] end) outs.

(** [Promise.all(searches).reduce(flatten)]: the reduction of no root at
    all is [undefined], which the following [map] refuses. *)
Definition reduceAll (perRoot : list (list File)) : result (list File) :=
  match perRoot with
  | [] => Err notIterable
  | first :: rest => Ok (fold_left flatten rest first)
  end.

Definition find (schedule : list nat) (fh : FileHound)
  : FileHound * result (list string) * list notification * list effect :=
  let fh := initFilters fh in
  let outs := map (searchAsync fh) (getSearchPaths fh) in
  let es := flat_map steps outs in
  let '(early, failure, later) := settleAll outs schedule in
  match failure with
  | Some e =>
      (fh, Err e, early ++ [Error e; End] ++ flat_map (emittedAt outs) later, es)
  | None =>
      match reduceAll (fulfilled outs) with
      | inl e => (fh, Err e, early ++ [Error e; End], es)
      | inr files => (fh, Ok (map toFilename files), early ++ [End], es)
      end
  end.

End Search.

(** ** [find()] of the compiled module [dist/src/filehound.js]

    The compiled module delegates each walk to [./walker/walk], which is not
    part of the available sources and is not handed the emitter: a walk is
    taken as the value or the error it settles to.  [errorListener] tells
    whether a listener is attached for the error notification; without one
    the emitter throws the error it is given. *)

Fixpoint firstFailure (walks : list (result (list string))) (schedule : list nat)
  : option error :=
  match schedule with
  | [] => None
  | i :: rest =>
      match nth_error walks i with
      | Some (inl e) => Some e
      | _ => firstFailure walks rest
      end
  end.

Definition fulfilledDist (walks : list (result (list string))) : list (list string) :=
  flat_map (fun r => match r with inr fs => [fs] | inl _ => [] end) walks.

(** The [catch] and [finally] blocks: the value is [None] for [undefined]. *)
Definition caughtDist (errorListener : bool) (e : error)
  : result (option (list string)) * list notification :=
  if errorListener then (Ok None, [Error e; End]) else (Err e, [Error e; End]).

Definition findDist (errorListener : bool) (walks : list (result (list string)))
    (schedule : list nat) : result (option (list string)) * list notification :=
  match firstFailure walks schedule with
  | Some e => caughtDist errorListener e
  | None =>
      match fulfilledDist walks with
      | [] => caughtDist errorListener
                (TypeError "Reduce of empty array with no initial value")
      | first :: rest =>
          let files := fold_left flatten rest first in
          (Ok (Some files), map Match files ++ [End])
      end
  end.

(** ** Reference definitions *)

(** The first occurrence of every string, in order of first occurrence. *)
Fixpoint firstOccurrences (xs : list string) : list string :=
  match xs with
  | [] => []
  | x :: rest => x :: filter (fun y => negb (String.eqb x y)) (firstOccurrences rest)
  end.

(** The entries of a listing that are not directories. *)
Definition plainEntries (files : list File) : list File :=
  filter (fun f => negb (isDirectorySync f)) files.

(** ** Sample entries *)

(** A regular file: it is not a directory, and listing it fails. *)
Definition regular (name : string) (depth : Z) (hidden : bool) (extension : string) : File :=
  mkFile name depth hidden false extension (inl (TypeError "not a directory")).

Definition folder (name : string) (depth : Z) (hidden : bool) (files : list File) : File :=
  mkFile name depth hidden true "" (inr files).

(** A directory that cannot be listed. *)
Definition unreadable (name : string) (depth : Z) : File :=
  mkFile name depth false true "" (inl (IOError name)).

Definition a_b_f : File := regular "/a/b/f.txt" 2 false "txt".
Definition a_b : File := folder "/a/b" 2 false [a_b_f].
Definition a_g : File := regular "/a/g.log" 1 false "log".
Definition a : File := folder "/a" 1 false [a_g; a_b].
Definition c_h : File := regular "/c/h.txt" 1 false "txt".
Definition c : File := folder "/c" 1 false [c_h].

(** A small file system: [/a] holds [g.log] and the directory [b], which
    holds [f.txt]; [/c] holds [h.txt]; every other path is a directory that
    cannot be listed. *)
Definition sampleFs (p : string) : File :=
  if String.eqb p "/a" then a
  else if String.eqb p "/a/b" then a_b
  else if String.eqb p "/c" then c
  else unreadable p 0.

(** The directories a walk of [path] may record: every directory entry met
    in a listing that the walk reads, unless the entry is itself pruned; in
    the order the walk meets them. *)
Fixpoint eligible (fh : FileHound) (root path : File) {struct path} : list File :=
  if shouldFilterDirectory fh root path then []
  else
    match path with
    | mkFile _ _ _ _ _ (inl _) => []
    | mkFile _ _ _ _ _ (inr files) =>
        (fix over (fs : list File) : list File :=
           match fs with
           | [] => []
           | f :: rest =>
               (if isDirectorySync f
                then if shouldFilterDirectory fh root f then []
                     else f :: eligible fh root f
                else []) ++ over rest
           end) files
    end.

Definition eligibleIn (fh : FileHound) (root : File) (files : list File) : list File :=
  flat_map (fun f => if isDirectorySync f
                     then if shouldFilterDirectory fh root f then []
                          else f :: eligible fh root f
                     else []) files.

(** A [reducePaths] that drops every root lying inside another root of the
    list: the reduction that [getSearchPaths] asks for when no depth limit
    is set.  It stands in where a concrete [reducePaths] is needed. *)
Definition liesInside (outer inner : string) : bool :=
  negb (String.eqb outer inner) && String.prefix (String.append outer "/") inner.

Definition dropNestedRoots (ps : list string) : list string :=
  filter (fun p => negb (existsb (fun q => liesInside q p) ps)) ps.

(** ** Calls on an instance *)

(** The methods that change or use an instance.  The filters [modified],
    [accessed], [changed], [size], [isEmpty], [glob], [match], [socket] and
    [discard] are calls of [addFilter]. *)
Inductive call : Type :=
| CallAddFilter (filter : File -> bool)
| CallExt (extensions : list string)
| CallIgnoreHiddenFiles
| CallPaths (args : list arg)
| CallNot
| CallIgnoreHiddenDirectories
| CallDirectory
| CallDepth (d : Z)
| CallFind (schedule : list nat)
| CallFindSync.

Section Calls.

Variable fileCreate : string -> File.
Variable reducePaths : list string -> list string.

(** The instance after a call. *)
Definition after (c : call) (fh : FileHound) : FileHound :=
  match c with
  | CallAddFilter p => addFilter p fh
  | CallExt es => ext es fh
  | CallIgnoreHiddenFiles => ignoreHiddenFiles fh
  | CallPaths args => paths args fh
  | CallNot => not_ fh
  | CallIgnoreHiddenDirectories => ignoreHiddenDirectories fh
  | CallDirectory => directory fh
  | CallDepth d => depth d fh
  | CallFind schedule => fst (fst (fst (find fileCreate reducePaths schedule fh)))
  | CallFindSync => fst (fst (findSync fileCreate reducePaths fh))
  end.

Definition afterAll (cs : list call) (fh : FileHound) : FileHound :=
  fold_left (fun h c => after c h) cs fh.

End Calls.


Definition isMatchNotification (n : notification) : bool :=
  match n with Match _ => true | _ => false end.

(** ** Predicates used in the statements *)

(** The walk of [path] records exactly the directories it may record. *)
Definition tracksEligible (fh : FileHound) (root path : File) : Prop :=
  forall (w w' : walk) (files : list File),
    search fh root path w = (Ok files, w') ->
    trackedPaths w' = trackedPaths w ++ eligible fh root path.

(** A directory that the walk records: a directory the pruning rule keeps. *)
Definition recordable (fh : FileHound) (root d : File) : Prop :=
  isDirectorySync d = true /\ shouldFilterDirectory fh root d = false.

(** The notification a walk emits for a matched file. *)
Definition matchOf (file : File) : notification := Match (getName file).


(** ** Reference definitions for the walk *)

(** The candidates of a walk of [path]: the entries that are not
    directories, found in the listings of [path] and of the directories below
    it that the pruning rule keeps, in listing order, depth first. *)
Fixpoint reachable (fh : FileHound) (root path : File) {struct path} : list File :=
  if shouldFilterDirectory fh root path then []
  else
    match path with
    | mkFile _ _ _ _ _ (inl _) => []
    | mkFile _ _ _ _ _ (inr files) =>
        (fix over (fs : list File) : list File :=
           match fs with
           | [] => []
           | f :: rest =>
               (if isDirectorySync f then reachable fh root f else [f]) ++ over rest
           end) files
    end.

Definition reachableIn (fh : FileHound) (root : File) (files : list File) : list File :=
  flat_map (fun f => if isDirectorySync f then reachable fh root f else [f]) files.

(** The error of the first directory, in the order of the walk, that the
    walk of [path] reads and cannot list. *)
Fixpoint firstError (fh : FileHound) (root path : File) {struct path} : option error :=
  if shouldFilterDirectory fh root path then None
  else
    match path with
    | mkFile _ _ _ _ _ (inl e) => Some e
    | mkFile _ _ _ _ _ (inr files) =>
        (fix over (fs : list File) : option error :=
           match fs with
           | [] => None
           | f :: rest =>
               match (if isDirectorySync f then firstError fh root f else None) with
               | Some e => Some e
               | None => over rest
               end
           end) files
    end.

Fixpoint firstErrorIn (fh : FileHound) (root : File) (files : list File) : option error :=
  match files with
  | [] => None
  | f :: rest =>
      match (if isDirectorySync f then firstError fh root f else None) with
      | Some e => Some e
      | None => firstErrorIn fh root rest
      end
  end.

(** Every entry below [path] that is not a directory, whatever the
    configuration: the full recursive file listing. *)
Fixpoint allFiles (path : File) : list File :=
  match path with
  | mkFile _ _ _ _ _ (inl _) => []
  | mkFile _ _ _ _ _ (inr files) =>
      (fix over (fs : list File) : list File :=
         match fs with
         | [] => []
         | f :: rest => (if isDirectorySync f then allFiles f else [f]) ++ over rest
         end) files
  end.

Definition allFilesIn (files : list File) : list File :=
  flat_map (fun f => if isDirectorySync f then allFiles f else [f]) files.

(** What a walk of [path] answers: the error of the first directory it
    cannot list, or else the candidates that the matcher accepts. *)
Definition answers (fh : FileHound) (root path : File) : result (list File) :=
  match firstError fh root path with
  | Some e => Err e
  | None => Ok (filter (isMatch fh) (reachable fh root path))
  end.

(** ** [discard] and [any] *)

Section Discard.

(** [new RegExp(pattern).test(name)]: the regular-expression engine of the
    runtime, of which nothing is assumed. *)
Variable regExpTest : string -> string -> bool.



End Discard.

(** [FileHound.any(...args)]: [Promise.all] over the given promises, each
    taken as what it settles to, then [reduce(flatten, [])].  [schedule] is
    the order in which the promises settle. *)
Definition any (promises : list (result (list string))) (schedule : list nat)
  : result (list string) :=
  match firstFailure promises schedule with
  | Some e => Err e
  | None => Ok (fold_left flatten (fulfilledDist promises) [])
  end.

(** * Properties *)

(** ** Unfolding the walk *)

Lemma File_ind (P : File -> Prop) :
  (forall n d h dr e err, P (mkFile n d h dr e (inl err))) ->
  (forall n d h dr e files, Forall P files -> P (mkFile n d h dr e (inr files))) ->
  forall f, P f.
Proof.
  intros Herr Hdir.
  fix IH 1.
  intros [n d h dr e [err | files]].
  - apply Herr.
  - apply Hdir.
    induction files as [| f fs IHfs]; constructor.
    + apply IH.
    + exact IHfs.
Qed.

Lemma search_eq (fh : FileHound) (root path : File) (w : walk) :
  search fh root path w =
  if shouldFilterDirectory fh root path then (Ok [], w)
  else
    match getFiles path with
    | inl e => (Err e, record [listEffect fh path] w)
    | inr files =>
        match each fh root files (record [listEffect fh path] w) with
        | (inl e, w1) => (Err e, w1)
        | (inr parts, w1) =>
            let all := fold_left flatten parts [] in
            (Ok (filter (isMatch fh) all), record (evaluations all) w1)
        end
    end.
Proof.
  destruct path as [n d h dr e [err | files]]; simpl.
  - reflexivity.
  - destruct (shouldFilterDirectory fh root _); [reflexivity |].
    match goal with
    | |- match ?a with _ => _ end = match ?b with _ => _ end =>
        replace a with b; [reflexivity |]
    end.
    generalize (record [listEffect fh (mkFile n d h dr e (inr files))] w).
    induction files as [| f fs IH]; intros w0; simpl; [reflexivity |].
    unfold visit.
    destruct (isDirectorySync f).
    + destruct (search fh root f _) as [[err | here] w1]; [reflexivity |].
      rewrite IH. reflexivity.
    + rewrite IH. reflexivity.
Qed.

(** [reduce(flatten, [])] is the concatenation of the parts. *)
Lemma fold_flatten {A : Type} (parts : list (list A)) (init : list A) :
  fold_left flatten parts init = init ++ List.concat parts.
Proof.
  revert init.
  induction parts as [| p ps IH]; intros init; simpl.
  - now rewrite app_nil_r.
  - rewrite IH. unfold flatten. now rewrite app_assoc.
Qed.

(** ** Matching *)

Lemma composeFrom_forallb (fs : list (File -> bool)) (acc : bool) (file : File) :
  composeFrom acc fs file = acc && forallb (fun p => p file) fs.
Proof.
  revert acc.
  induction fs as [| f rest IH]; intros acc; simpl.
  - now rewrite andb_true_r.
  - rewrite IH. now rewrite andb_assoc.
Qed.

Lemma filters_addFilter_all (ps : list (File -> bool)) (fh : FileHound) :
  filters (fold_left (fun h p => addFilter p h) ps fh) = filters fh ++ ps.
Proof.
  revert fh.
  induction ps as [| p ps IH]; intros fh; simpl.
  - now rewrite app_nil_r.
  - rewrite IH. simpl. now rewrite <- app_assoc.
Qed.

(** C1.  The matcher installed when a search begins answers, on every entry,
    the conjunction of the added predicates taken in insertion order,
    exclusive-or the negation flag; predicates added one after the other are
    held in that order; with no predicate and no negation every entry
    matches; and after [not()] an entry matches exactly when some predicate
    rejects it. *)
Theorem evaluate_is_and_xor_negate :
  (forall (fh : FileHound) (entry : File),
      isMatch (initFilters fh) entry =
      xorb (forallb (fun p => p entry) (filters fh)) (negateFilters fh))
  /\ (forall (ps : list (File -> bool)) (fh : FileHound),
         filters (fold_left (fun h p => addFilter p h) ps fh) = filters fh ++ ps)
  /\ (forall (cwd : string) (entry : File),
         isMatch (initFilters (create cwd)) entry = true)
  /\ (forall (fh : FileHound) (entry : File),
         isMatch (initFilters (not_ fh)) entry =
         existsb (fun p => negb (p entry)) (filters fh)).
Proof.
  assert (H : forall fh entry,
             isMatch (initFilters fh) entry =
             xorb (forallb (fun p => p entry) (filters fh)) (negateFilters fh)).
  { intros fh entry. simpl. unfold newMatcher, negate, compose.
    destruct (negateFilters fh); rewrite composeFrom_forallb; simpl.
    - now rewrite xorb_true_r.
    - now rewrite xorb_false_r. }
  split; [| split; [| split]].
  - exact H.
  - exact filters_addFilter_all.
  - intros cwd entry. rewrite H. reflexivity.
  - intros fh entry. rewrite H. simpl. rewrite xorb_true_r.
    induction (filters fh) as [| p ps IH]; simpl; [reflexivity |].
    rewrite negb_andb, IH. reflexivity.
Qed.

(** ** Extensions *)

Lemma cleanExtension_dot (e : string) : cleanExtension (String "." e) = e.
Proof. reflexivity. Qed.

Lemma cleanExtension_plain (e : string) :
  startsWithDot e = false -> cleanExtension e = e.
Proof. unfold cleanExtension. now intros ->. Qed.

Lemma includes_In (xs : list string) (x : string) :
  includes xs x = true <-> In x xs.
Proof.
  unfold includes. rewrite existsb_exists. split.
  - intros [y [Hin Heq]]. apply String.eqb_eq in Heq. now subst.
  - intros Hin. exists x. split; [exact Hin | apply String.eqb_refl].
Qed.

(** C10, as amended.  For an extension [e] that does not itself begin with a
    dot, [ext] given ['.' + e] at some position builds the same instance as
    [ext] given [e] there: one leading dot is stripped from each argument.
    The filter that [ext] adds accepts a file exactly when its path
    extension is among the cleaned arguments. *)
Theorem ext_leading_dot_equivalent
    (e : string) (pre post : list string) (fh : FileHound) :
  startsWithDot e = false ->
  ext (pre ++ String "." e :: post) fh = ext (pre ++ e :: post) fh
  /\ cleanExtension (String "." e) = e
  /\ (forall exts : list string,
         exists p : File -> bool,
           filters (ext exts fh) = filters fh ++ [p]
           /\ forall file : File,
               p file = true <-> In (getPathExtension file) (map cleanExtension exts)).
Proof.
  intros Hplain. split; [| split].
  - unfold ext. rewrite !map_app. simpl map.
    rewrite cleanExtension_dot, (cleanExtension_plain _ Hplain). reflexivity.
  - reflexivity.
  - intros exts. eexists. split; [reflexivity |].
    intros file. apply includes_In.
Qed.

Lemma ext_leading_dot_equivalent_witness :
  startsWithDot "txt" = false
  /\ ext ([] ++ ".txt" :: []) (create "/") = ext ([] ++ "txt" :: []) (create "/").
Proof.
  split; [reflexivity |].
  apply (ext_leading_dot_equivalent "txt" [] [] (create "/")). reflexivity.
Defined.

(** C10, as stated, fails for an extension that begins with a dot: [ext]
    given ["..txt"] keeps [".txt"], [ext] given [".txt"] keeps ["txt"], and
    a file whose extension is ["txt"] tells them apart. *)
Lemma ext_leading_dot_not_for_every_string :
  ~ (forall (e : string) (fh : FileHound) (file : File),
        isMatch (initFilters (ext [String "." e] fh)) file =
        isMatch (initFilters (ext [e] fh)) file).
Proof.
  intros H.
  specialize (H ".txt" (create "/") a_b_f).
  vm_compute in H. discriminate H.
Qed.

(** ** Root paths *)

Lemma filter_swap {A : Type} (p q : A -> bool) (xs : list A) :
  filter p (filter q xs) = filter q (filter p xs).
Proof.
  induction xs as [| x xs IH]; simpl; [reflexivity |].
  destruct (q x) eqn:Hq, (p x) eqn:Hp; simpl; rewrite ?Hq, ?Hp, IH; reflexivity.
Qed.

Lemma filter_absorb {A : Type} (p q : A -> bool) (xs : list A) :
  (forall x, p x = true -> q x = true) ->
  filter p (filter q xs) = filter p xs.
Proof.
  intros Hpq.
  induction xs as [| x xs IH]; simpl; [reflexivity |].
  destruct (q x) eqn:Hq; simpl.
  - now rewrite IH.
  - destruct (p x) eqn:Hp; [| exact IH].
    apply Hpq in Hp. congruence.
Qed.

Lemma firstOccurrences_filter (p : string -> bool) (xs : list string) :
  firstOccurrences (filter p xs) = filter p (firstOccurrences xs).
Proof.
  induction xs as [| x xs IH]; simpl; [reflexivity |].
  destruct (p x) eqn:Hp; simpl.
  - rewrite IH. f_equal. apply filter_swap.
  - rewrite IH. symmetry. apply filter_absorb.
    intros y Hy. destruct (String.eqb_spec x y) as [-> | Hne]; [congruence | reflexivity].
Qed.

Lemma includes_app (res : list string) (x y : string) :
  negb (includes (res ++ [x]) y) = negb (includes res y) && negb (String.eqb x y).
Proof.
  unfold includes. rewrite existsb_app. simpl.
  rewrite orb_false_r, negb_orb. now rewrite (String.eqb_sym y x).
Qed.

Lemma filter_and {A : Type} (p q : A -> bool) (xs : list A) :
  filter (fun x => p x && q x) xs = filter q (filter p xs).
Proof.
  induction xs as [| x xs IH]; simpl; [reflexivity |].
  destruct (p x); simpl; [destruct (q x) |]; now rewrite IH.
Qed.

Lemma uniq_from (xs res : list string) :
  fold_left uniqStep xs res =
  res ++ firstOccurrences (filter (fun y => negb (includes res y)) xs).
Proof.
  revert res.
  induction xs as [| x xs IH]; intros res; simpl.
  - now rewrite app_nil_r.
  - unfold uniqStep at 2. destruct (includes res x) eqn:Hin; simpl.
    + apply IH.
    + rewrite IH, <- app_assoc. simpl. do 2 f_equal.
      rewrite <- firstOccurrences_filter. f_equal.
      rewrite <- filter_and. apply filter_ext.
      intros y. apply includes_app.
Qed.

Lemma uniq_firstOccurrences (xs : list string) : uniq xs = firstOccurrences xs.
Proof.
  unfold uniq. rewrite uniq_from. simpl. f_equal.
  induction xs as [| x xs IH]; simpl; [reflexivity | now rewrite IH].
Qed.

Lemma firstOccurrences_In (xs : list string) (x : string) :
  In x (firstOccurrences xs) <-> In x xs.
Proof.
  induction xs as [| y ys IH]; simpl; [tauto |].
  rewrite filter_In, IH.
  destruct (String.eqb_spec y x) as [-> | Hne]; simpl; intuition congruence.
Qed.

Lemma firstOccurrences_NoDup (xs : list string) : NoDup (firstOccurrences xs).
Proof.
  induction xs as [| y ys IH]; simpl; constructor.
  - rewrite filter_In, String.eqb_refl. simpl. intros [_ H]. discriminate H.
  - now apply NoDup_filter.
Qed.

(** C8, as amended.  [paths] flattens its arguments, removes the strings
    that repeat an earlier one exactly, keeping the order of first
    occurrence, and then normalizes each remaining path: duplicates are
    removed before normalization, not after it. *)
Theorem paths_uniq_then_normalize (args : list arg) (fh : FileHound) :
  searchPaths (paths args fh) = map normalize (firstOccurrences (from args))
  /\ uniq (from args) = firstOccurrences (from args)
  /\ NoDup (uniq (from args))
  /\ (forall p : string, In p (uniq (from args)) <-> In p (from args)).
Proof.
  split; [| split; [| split]].
  - simpl. now rewrite uniq_firstOccurrences.
  - apply uniq_firstOccurrences.
  - rewrite uniq_firstOccurrences. apply firstOccurrences_NoDup.
  - intros p. rewrite uniq_firstOccurrences. apply firstOccurrences_In.
Qed.

(** C8, as stated, fails: two spellings of one directory are distinct
    strings, both survive [_.uniq], and normalization then makes them
    equal, so the search-path list holds a duplicate. *)
Lemma paths_keeps_duplicates_after_normalization :
  searchPaths (paths [One "/a/b"; Many ["/a/./b"]] (create "/")) = ["/a/b"; "/a/b"]
  /\ ~ NoDup (searchPaths (paths [One "/a/b"; Many ["/a/./b"]] (create "/"))).
Proof.
  split; [reflexivity |].
  intros H. inversion H as [| x l Hnotin _]; subst.
  apply Hnotin. left. reflexivity.
Qed.

(** ** Pruning *)

Lemma shouldFilterDirectory_iff (fh : FileHound) (root dir : File) :
  shouldFilterDirectory fh root dir = true <->
  (exists m : Z, maxDepth fh = Some m /\ (m < getDepthSync dir - getDepthSync root)%Z)
  \/ (ignoreDirs fh = true /\ isHiddenSync dir = true).
Proof.
  unfold shouldFilterDirectory, atMaxDepth.
  rewrite orb_true_iff, andb_true_iff.
  destruct (maxDepth fh) as [m |].
  - rewrite Z.ltb_lt. split.
    + intros [H | H]; [left; now exists m | now right].
    + intros [[m' [Hm H]] | H]; [left; congruence | now right].
  - split.
    + intros [H | H]; [discriminate H | now right].
    + intros [[m' [Hm _]] | H]; [discriminate Hm | now right].
Qed.

Lemma search_pruned (fh : FileHound) (root dir : File) (w : walk) :
  shouldFilterDirectory fh root dir = true -> search fh root dir w = (Ok [], w).
Proof. intros H. rewrite search_eq, H. reflexivity. Qed.

Lemma each_extends (fh : FileHound) (root : File) (files : list File) :
  Forall (fun f => forall w, exists rest,
              effects (snd (search fh root f w)) = effects w ++ rest) files ->
  forall w, exists rest, effects (snd (each fh root files w)) = effects w ++ rest.
Proof.
  induction 1 as [| f fs Hf _ IH]; intros w; simpl.
  - exists []. now rewrite app_nil_r.
  - assert (Hv : exists rest, effects (snd (visit fh root f w)) = effects w ++ rest).
    { unfold visit. destruct (isDirectorySync f).
      - destruct (negb (shouldFilterDirectory fh root f)); [| apply Hf].
        destruct (Hf (push f w)) as [r Hr]. exists r. exact Hr.
      - exists []. simpl. now rewrite app_nil_r. }
    destruct (visit fh root f w) as [[e | here] w1]; simpl in *; [exact Hv |].
    destruct Hv as [r1 Hr1].
    destruct (IH w1) as [r2 Hr2].
    destruct (each fh root fs w1) as [[e | others] w2]; simpl in *;
      exists (r1 ++ r2); rewrite Hr2, Hr1; now rewrite app_assoc.
Qed.

Lemma search_extends (fh : FileHound) (root path : File) (w : walk) :
  exists rest, effects (snd (search fh root path w)) = effects w ++ rest.
Proof.
  revert w.
  induction path as [n d h dr e err | n d h dr e files IH] using File_ind; intros w;
    rewrite search_eq; destruct (shouldFilterDirectory fh root _); simpl.
  - exists []. now rewrite app_nil_r.
  - eexists. reflexivity.
  - exists []. now rewrite app_nil_r.
  - destruct (each_extends fh root files IH (record [listEffect fh (mkFile n d h dr e (inr files))] w))
      as [r Hr].
    destruct (each fh root files _) as [[err | parts] w1]; simpl in *.
    + eexists. rewrite Hr. rewrite <- app_assoc. reflexivity.
    + eexists. rewrite Hr. rewrite <- !app_assoc. reflexivity.
Qed.

Lemma search_lists_first (fh : FileHound) (root dir : File) (w : walk) :
  shouldFilterDirectory fh root dir = false ->
  exists rest, effects (snd (search fh root dir w)) = effects w ++ listEffect fh dir :: rest.
Proof.
  intros Hkeep. rewrite search_eq, Hkeep.
  destruct (getFiles dir) as [err | files] eqn:Hfiles; simpl.
  - now exists [].
  - assert (H : forall w0, exists rest,
                 effects (snd (each fh root files w0)) = effects w0 ++ rest).
    { apply each_extends. apply Forall_forall. intros f _ w0. apply search_extends. }
    destruct (H (record [listEffect fh dir] w)) as [r Hr].
    destruct (each fh root files _) as [[err | parts] w1]; simpl in *.
    + exists r. rewrite Hr, <- app_assoc. reflexivity.
    + eexists. rewrite Hr, <- !app_assoc. reflexivity.
Qed.

(** With [maxDepth = 0], every directory of the root's listing that lies
    deeper than the root is skipped. *)
Lemma each_depth_zero (fh : FileHound) (root : File) (files : list File) (w : walk) :
  maxDepth fh = Some 0%Z ->
  Forall (fun f => isDirectorySync f = true ->
                   (getDepthSync root < getDepthSync f)%Z) files ->
  each fh root files w =
  (Ok (map (fun f => if isDirectorySync f then [] else [f]) files), w).
Proof.
  intros Hmax Hdeep. revert w.
  induction Hdeep as [| f fs Hf _ IH]; intros w; simpl; [reflexivity |].
  unfold visit.
  destruct (isDirectorySync f) eqn:Hdir.
  - assert (Hpruned : shouldFilterDirectory fh root f = true).
    { apply shouldFilterDirectory_iff. left. exists 0%Z. split; [exact Hmax |].
      specialize (Hf eq_refl). lia. }
    rewrite Hpruned. simpl. rewrite (search_pruned _ _ _ _ Hpruned).
    rewrite IH. reflexivity.
  - rewrite IH. reflexivity.
Qed.

Lemma concat_plainEntries (files : list File) :
  List.concat (map (fun f => if isDirectorySync f then [] else [f]) files)
  = plainEntries files.
Proof.
  unfold plainEntries.
  induction files as [| f fs IH]; simpl; [reflexivity |].
  destruct (isDirectorySync f); simpl; now rewrite IH.
Qed.

(** C2, as amended.  A candidate is pruned exactly when the depth limit is
    set and its depth relative to the root exceeds the limit, or hidden
    directories are ignored and it is hidden; a pruned candidate is not
    listed and a kept one is.  For a limit that is not negative the root
    itself is never pruned by the depth rule.  With the limit at zero, and
    every directory listed in the root lying deeper than the root, the walk
    of a root answers the matching non-directory entries of the root's own
    listing and lists nothing but the root. *)
Theorem prune_rule_and_depth_limit :
  (forall (fh : FileHound) (root dir : File),
      shouldFilterDirectory fh root dir = true <->
      (exists m : Z, maxDepth fh = Some m
                     /\ (m < getDepthSync dir - getDepthSync root)%Z)
      \/ (ignoreDirs fh = true /\ isHiddenSync dir = true))
  /\ (forall (fh : FileHound) (root dir : File) (w : walk),
         shouldFilterDirectory fh root dir = true ->
         search fh root dir w = (Ok [], w))
  /\ (forall (fh : FileHound) (root dir : File) (w : walk),
         shouldFilterDirectory fh root dir = false ->
         exists rest : list effect,
           effects (snd (search fh root dir w)) = effects w ++ listEffect fh dir :: rest)
  /\ (forall (fh : FileHound) (root : File) (m : Z),
         maxDepth fh = Some m -> (0 <= m)%Z -> atMaxDepth fh root root = false)
  /\ (forall (fh : FileHound) (root : File) (files : list File) (w : walk),
         maxDepth fh = Some 0%Z ->
         ignoreDirs fh && isHiddenSync root = false ->
         getFiles root = inr files ->
         Forall (fun f => isDirectorySync f = true ->
                          (getDepthSync root < getDepthSync f)%Z) files ->
         search fh root root w =
         (Ok (filter (isMatch fh) (plainEntries files)),
          record (listEffect fh root :: evaluations (plainEntries files)) w)).
Proof.
  split; [| split; [| split; [| split]]].
  - exact shouldFilterDirectory_iff.
  - exact search_pruned.
  - exact search_lists_first.
  - intros fh root m Hmax Hm. unfold atMaxDepth. rewrite Hmax.
    apply Z.ltb_ge. lia.
  - intros fh root files w Hmax Hhidden Hfiles Hdeep.
    rewrite search_eq.
    assert (Hkeep : shouldFilterDirectory fh root root = false).
    { unfold shouldFilterDirectory, atMaxDepth. rewrite Hmax, Hhidden.
      rewrite orb_false_r. apply Z.ltb_ge. lia. }
    rewrite Hkeep, Hfiles, (each_depth_zero fh root files _ Hmax Hdeep).
    unfold Ok at 1. cbv iota beta. rewrite fold_flatten, concat_plainEntries. simpl.
    unfold record. simpl. rewrite <- app_assoc. reflexivity.
Qed.

Lemma prune_rule_and_depth_limit_witness :
  search (depth 0 (create "/")) a a emptyWalk =
  (Ok (filter (isMatch (depth 0 (create "/"))) (plainEntries [a_g; a_b])),
   record (listEffect (depth 0 (create "/")) a :: evaluations (plainEntries [a_g; a_b]))
          emptyWalk).
Proof.
  apply (proj2 (proj2 (proj2 (proj2 prune_rule_and_depth_limit)))).
  - reflexivity.
  - reflexivity.
  - reflexivity.
  - repeat constructor; simpl; intros; lia || discriminate.
Defined.

(** C2, as stated, fails for a negative limit: after [depth(-1)] the root, at
    relative depth 0, is pruned by the depth rule and its walk lists
    nothing. *)
Lemma root_pruned_by_negative_depth :
  atMaxDepth (depth (-1) (create "/")) a a = true
  /\ search (depth (-1) (create "/")) a a emptyWalk = (Ok [], emptyWalk).
Proof. split; reflexivity. Qed.

(** ** Pruned directories *)

Lemma each_app (fh : FileHound) (root : File) (xs ys : list File) (w : walk) :
  each fh root (xs ++ ys) w =
  match each fh root xs w with
  | (inl e, w1) => (Err e, w1)
  | (inr ps, w1) =>
      match each fh root ys w1 with
      | (inl e, w2) => (Err e, w2)
      | (inr qs, w2) => (Ok (ps ++ qs), w2)
      end
  end.
Proof.
  revert w.
  induction xs as [| x xs IH]; intros w; simpl.
  - destruct (each fh root ys w) as [[e | qs] w2]; reflexivity.
  - destruct (visit fh root x w) as [[e | here] w1]; [reflexivity |].
    rewrite IH.
    destruct (each fh root xs w1) as [[e | ps] w2]; [reflexivity |].
    destruct (each fh root ys w2) as [[e | qs] w3]; reflexivity.
Qed.

Lemma visit_pruned (fh : FileHound) (root d : File) (w : walk) :
  isDirectorySync d = true ->
  shouldFilterDirectory fh root d = true -> visit fh root d w = (Ok [], w).
Proof.
  intros Hdir Hpruned. unfold visit. rewrite Hdir, Hpruned. simpl.
  now apply search_pruned.
Qed.

(** C7.  The walk of a directory that the pruning rule rejects answers the
    empty result and leaves the walk state as it was: nothing is listed,
    nothing is evaluated, nothing is recorded, whatever the directory
    holds.  Met as an entry of a listing, such a directory yields the empty
    result in the same way, and the walk of the enclosing directory is the
    walk it would be were the entry not in the listing at all. *)
Theorem pruned_directory_contributes_nothing (fh : FileHound) (root d : File) :
  shouldFilterDirectory fh root d = true ->
  (forall w : walk, search fh root d w = (Ok [], w))
  /\ (isDirectorySync d = true ->
      (forall w : walk, visit fh root d w = (Ok [], w))
      /\ (forall (n : string) (dp : Z) (h dr : bool) (e : string)
                 (pre post : list File) (w : walk),
             search fh root (mkFile n dp h dr e (inr (pre ++ d :: post))) w =
             search fh root (mkFile n dp h dr e (inr (pre ++ post))) w)).
Proof.
  intros Hpruned. split; [| intros Hdir; split].
  - intros w. now apply search_pruned.
  - intros w. now apply visit_pruned.
  - intros n dp h dr e pre post w.
    rewrite !search_eq.
    assert (Hsame : shouldFilterDirectory fh root (mkFile n dp h dr e (inr (pre ++ d :: post)))
                    = shouldFilterDirectory fh root (mkFile n dp h dr e (inr (pre ++ post))))
      by reflexivity.
    rewrite Hsame.
    destruct (shouldFilterDirectory fh root (mkFile n dp h dr e (inr (pre ++ post))));
      [reflexivity |].
    simpl getFiles. unfold listEffect. simpl getName.
    set (w0 := record _ w).
    rewrite !each_app.
    destruct (each fh root pre w0) as [[err | ps] w1]; [reflexivity |].
    simpl each. rewrite (visit_pruned fh root d w1 Hdir Hpruned).
    destruct (each fh root post w1) as [[err | qs] w2]; [reflexivity |].
    unfold Ok. cbv iota beta zeta. rewrite !fold_flatten, !concat_app. simpl. reflexivity.
Qed.

Lemma pruned_directory_contributes_nothing_witness :
  shouldFilterDirectory (depth 0 (create "/")) a a_b = true
  /\ forall w : walk, search (depth 0 (create "/")) a a_b w = (Ok [], w).
Proof.
  split; [reflexivity |].
  exact (proj1 (pruned_directory_contributes_nothing
                  (depth 0 (create "/")) a a_b eq_refl)).
Defined.

(** ** Directories-only mode *)

Lemma eligible_eq (fh : FileHound) (root path : File) :
  eligible fh root path =
  if shouldFilterDirectory fh root path then []
  else match getFiles path with
       | inl _ => []
       | inr files => eligibleIn fh root files
       end.
Proof.
  destruct path as [n d h dr e [err | files]]; simpl; [reflexivity |].
  destruct (shouldFilterDirectory fh root _); [reflexivity |].
  unfold eligibleIn.
  induction files as [| f fs IH]; simpl; [reflexivity | now rewrite IH].
Qed.

Lemma each_tracked (fh : FileHound) (root : File) (files : list File) :
  Forall (tracksEligible fh root) files ->
  forall (w w' : walk) (parts : list (list File)),
    each fh root files w = (Ok parts, w') ->
    trackedPaths w' = trackedPaths w ++ eligibleIn fh root files.
Proof.
  induction 1 as [| f fs Hf _ IH]; intros w w' parts Heach; simpl in Heach.
  - injection Heach as _ <-. simpl. now rewrite app_nil_r.
  - unfold visit in Heach. unfold eligibleIn. simpl. fold (eligibleIn fh root fs).
    destruct (isDirectorySync f) eqn:Hdir.
    + destruct (search fh root f _) as [[err | here] w1] eqn:Hsearch;
        [discriminate Heach |].
      destruct (each fh root fs w1) as [[err | others] w2] eqn:Hrest;
        [discriminate Heach |].
      injection Heach as _ <-.
      rewrite (IH _ _ _ Hrest), (Hf _ _ _ Hsearch).
      destruct (shouldFilterDirectory fh root f) eqn:Hpruned; simpl.
      * rewrite eligible_eq, Hpruned. simpl. now rewrite app_nil_r.
      * rewrite <- !app_assoc. reflexivity.
    + destruct (each fh root fs w) as [[err | others] w2] eqn:Hrest;
        [discriminate Heach |].
      injection Heach as _ <-.
      now rewrite (IH _ _ _ Hrest).
Qed.

Lemma search_tracked (fh : FileHound) (root path : File) : tracksEligible fh root path.
Proof.
  induction path as [n d h dr e err | n d h dr e files IH] using File_ind;
    intros w w' found; rewrite search_eq, eligible_eq;
    destruct (shouldFilterDirectory fh root _); simpl.
  - intros H. injection H as _ <-. now rewrite app_nil_r.
  - discriminate.
  - intros H. injection H as _ <-. now rewrite app_nil_r.
  - destruct (each fh root files _) as [[err | parts] w1] eqn:Heach; [discriminate |].
    intros H. injection H as _ <-.
    apply (each_tracked fh root files IH) in Heach. simpl in *. exact Heach.
Qed.

Lemma eligible_same_rule (fh1 fh2 : FileHound) (root path : File) :
  (forall d : File, shouldFilterDirectory fh1 root d = shouldFilterDirectory fh2 root d) ->
  eligible fh1 root path = eligible fh2 root path.
Proof.
  intros Hrule.
  induction path as [n d h dr e err | n d h dr e files IH] using File_ind;
    rewrite !eligible_eq, Hrule; destruct (shouldFilterDirectory fh2 root _); simpl;
    try reflexivity.
  unfold eligibleIn.
  induction IH as [| f fs Hf _ IHfs]; simpl; [reflexivity |].
  now rewrite Hrule, Hf, IHfs.
Qed.

Lemma eligible_recordable (fh : FileHound) (root path : File) :
  Forall (recordable fh root) (eligible fh root path).
Proof.
  induction path as [n d h dr e err | n d h dr e files IH] using File_ind;
    rewrite eligible_eq; destruct (shouldFilterDirectory fh root _); simpl;
    try constructor.
  unfold eligibleIn.
  induction IH as [| f fs Hf _ IHfs]; simpl; [constructor |].
  apply Forall_app. split; [| exact IHfs].
  destruct (isDirectorySync f) eqn:Hdir; [| constructor].
  destruct (shouldFilterDirectory fh root f) eqn:Hpruned; constructor.
  - split; assumption.
  - exact Hf.
Qed.

(** C3.  In directories-only mode, when the walk of a root succeeds, the
    root's search answers the recorded directories filtered through the
    matcher, whatever files the walk itself matched.  The recorded list
    holds, in the order the walk met them, the directory entries of the
    listings the walk read, each only if the pruning rule keeps it; so every
    entry of the result is a directory that the next recursive call would
    not prune.  The asynchronous search of a root that fulfils answers the
    same directories, each as often, in an order that follows the arrival of
    the listings, and emits no notification. *)
Theorem directories_only_answers_tracked
    (fileCreate : string -> File) (fh : FileHound) (dir : string)
    (files : list File) (w : walk) :
  directoriesOnly fh = true ->
  search (setSync fh) (fileCreate dir) (fileCreate dir) emptyWalk = (Ok files, w) ->
  snd (fst (searchSync fileCreate fh dir)) = Ok (filter (isMatch fh) (trackedPaths w))
  /\ trackedPaths w = eligible fh (fileCreate dir) (fileCreate dir)
  /\ Forall (recordable fh (fileCreate dir)) (trackedPaths w)
  /\ (forall (files' : list File) (w' : walk),
         sync fh = false ->
         shouldFilterDirectory fh (fileCreate dir) (fileCreate dir) = false ->
         search fh (fileCreate dir) (fileCreate dir) emptyWalk = (Ok files', w') ->
         exists answer : list File,
           outcome (searchAsync fileCreate fh dir) = Ok answer
           /\ Permutation answer
                (filter (isMatch fh) (eligible fh (fileCreate dir) (fileCreate dir)))
           /\ emitted (searchAsync fileCreate fh dir) = []).
Proof.
  intros Hdirs Hwalk.
  assert (Htracked : trackedPaths w = eligible fh (fileCreate dir) (fileCreate dir)).
  { pose proof (search_tracked _ _ _ _ _ _ Hwalk) as H. simpl in H. rewrite H.
    apply eligible_same_rule. reflexivity. }
  split; [| split; [| split]].
  - unfold searchSync. rewrite Hwalk. simpl. rewrite Hdirs. reflexivity.
  - exact Htracked.
  - rewrite Htracked. apply eligible_recordable.
  - intros files' w' Hasync Hkeep Hwalk'.
    unfold searchAsync. rewrite Hwalk', Hkeep, Hasync, Hdirs. simpl.
    apply search_tracked in Hwalk'. simpl in Hwalk'. rewrite Hwalk'.
    eexists. split; [reflexivity | split; [apply Permutation_refl | reflexivity]].
Qed.

Lemma directories_only_answers_tracked_witness :
  snd (fst (searchSync sampleFs (initFilters (directory (create "/"))) "/a"))
  = Ok (filter (isMatch (initFilters (directory (create "/")))) [a_b]).
Proof.
  apply (directories_only_answers_tracked sampleFs
           (initFilters (directory (create "/"))) "/a"
           [a_g; a_b_f] {| trackedPaths := [a_b];
                 effects := [ListSync "/a"; ListSync "/a/b";
                             Evaluate "/a/b/f.txt";
                             Evaluate "/a/g.log"; Evaluate "/a/b/f.txt"] |}).
  - reflexivity.
  - reflexivity.
Defined.

(** ** Searching the roots one after the other *)

Lemma searchSync_instance (fileCreate : string -> File) (fh : FileHound) (dir : string) :
  fst (fst (searchSync fileCreate fh dir)) = setSync fh.
Proof.
  unfold searchSync.
  destruct (search (setSync fh) (fileCreate dir) (fileCreate dir) emptyWalk)
    as [[e | files] w]; [reflexivity |].
  destruct (directoriesOnly (setSync fh)); reflexivity.
Qed.

Lemma searchSync_setSync (fileCreate : string -> File) (fh : FileHound) (dir : string) :
  searchSync fileCreate (setSync fh) dir = searchSync fileCreate fh dir.
Proof. reflexivity. Qed.

Lemma mapSearchSync_setSync (fileCreate : string -> File) (fh : FileHound)
    (dirs : list string) :
  snd (fst (mapSearchSync fileCreate (setSync fh) dirs))
  = snd (fst (mapSearchSync fileCreate fh dirs)).
Proof.
  destruct dirs as [| d rest]; [reflexivity |].
  simpl. rewrite searchSync_setSync. reflexivity.
Qed.

Lemma mapSearchSync_ok (fileCreate : string -> File) (fh : FileHound)
    (dirs : list string) (perRoot : list (list File)) :
  Forall2 (fun d fs => snd (fst (searchSync fileCreate fh d)) = Ok fs) dirs perRoot ->
  snd (fst (mapSearchSync fileCreate fh dirs)) = Ok perRoot.
Proof.
  induction 1 as [| d fs dirs perRoot Hd _ IH]; [reflexivity |].
  simpl.
  pose proof (searchSync_instance fileCreate fh d) as Hinst.
  destruct (searchSync fileCreate fh d) as [[fh1 r] es]. simpl in Hd, Hinst. subst.
  rewrite <- mapSearchSync_setSync in IH.
  destruct (mapSearchSync fileCreate (setSync fh) dirs) as [[fh2 r2] es2].
  simpl in IH. subst. reflexivity.
Qed.

Lemma count_occ_concat (perRoot : list (list string)) (name : string) :
  count_occ string_dec (List.concat perRoot) name
  = list_sum (map (fun fs => count_occ string_dec fs name) perRoot).
Proof.
  induction perRoot as [| fs rest IH]; simpl; [reflexivity |].
  now rewrite count_occ_app, IH.
Qed.

(** C5, as amended.  The roots that are searched are the search paths as
    given when a depth limit is set, and otherwise what [reducePaths] keeps
    of them.  Each searched root contributes the result of its own walk and
    the results are concatenated in root order with nothing removed: a name
    occurs in the result as often as in all the per-root results together,
    so an entry below two searched roots appears once for each. *)
Theorem searched_roots_are_not_deduplicated
    (fileCreate : string -> File) (reducePaths : list string -> list string)
    (fh : FileHound) (perRoot : list (list File)) :
  Forall2 (fun d fs => snd (fst (searchSync fileCreate (initFilters fh) d)) = Ok fs)
          (getSearchPaths reducePaths fh) perRoot ->
  getSearchPaths reducePaths fh <> [] ->
  snd (fst (findSync fileCreate reducePaths fh))
  = Ok (map toFilename (List.concat perRoot))
  /\ (forall name : string,
         count_occ string_dec (map toFilename (List.concat perRoot)) name
         = list_sum (map (fun fs => count_occ string_dec (map toFilename fs) name) perRoot))
  /\ (forall m : Z, maxDepth fh = Some m ->
                    getSearchPaths reducePaths fh = searchPaths fh)
  /\ (maxDepth fh = None ->
      getSearchPaths reducePaths fh = reducePaths (searchPaths fh)).
Proof.
  intros Hroots Hsome.
  split; [| split; [| split]].
  - unfold findSync.
    change (getSearchPaths reducePaths (initFilters fh))
      with (getSearchPaths reducePaths fh).
    pose proof (mapSearchSync_ok fileCreate (initFilters fh) _ _ Hroots) as Hmap.
    destruct (mapSearchSync fileCreate (initFilters fh) (getSearchPaths reducePaths fh))
      as [[fh1 r] es].
    simpl in Hmap. subst r.
    destruct perRoot as [| first rest].
    + inversion Hroots as [Hnil |]. congruence.
    + simpl. rewrite fold_flatten. reflexivity.
  - intros name. rewrite concat_map, count_occ_concat, map_map. reflexivity.
  - intros m Hm. unfold getSearchPaths. now rewrite Hm.
  - intros Hnone. unfold getSearchPaths. now rewrite Hnone.
Qed.

Lemma searched_roots_are_not_deduplicated_witness :
  snd (fst (findSync sampleFs dropNestedRoots
              (depth 5 (paths [One "/a"; One "/a/b"] (create "/")))))
  = Ok (map toFilename (List.concat [[a_g; a_b_f]; [a_b_f]])).
Proof.
  apply (searched_roots_are_not_deduplicated sampleFs dropNestedRoots
           (depth 5 (paths [One "/a"; One "/a/b"] (create "/")))
           [[a_g; a_b_f]; [a_b_f]]).
  - repeat constructor.
  - discriminate.
Defined.

(** C5, as stated, fails when no depth limit is set and [reducePaths] drops
    a root that lies inside another: of the overlapping roots [/a] and
    [/a/b] only [/a] is searched, and the file below both is answered
    once. *)
Lemma nested_root_is_reduced_away :
  snd (fst (findSync sampleFs dropNestedRoots
              (paths [One "/a"; One "/a/b"] (create "/"))))
  = Ok ["/a/g.log"; "/a/b/f.txt"]
  /\ getSearchPaths dropNestedRoots (paths [One "/a"; One "/a/b"] (create "/"))
     = ["/a"].
Proof. split; reflexivity. Qed.

(** ** The asynchronous search *)

Lemma searchAsync_emitted (fileCreate : string -> File) (fh : FileHound)
    (dir : string) (files : list File) :
  directoriesOnly fh = false ->
  outcome (searchAsync fileCreate fh dir) = Ok files ->
  emitted (searchAsync fileCreate fh dir) = map matchOf files.
Proof.
  intros Hdirs. unfold searchAsync.
  destruct (search fh (fileCreate dir) (fileCreate dir) emptyWalk) as [[e | found] w];
    simpl; [discriminate |].
  destruct (shouldFilterDirectory fh (fileCreate dir) (fileCreate dir) || sync fh);
    simpl; [discriminate |].
  rewrite Hdirs. simpl. intros H. injection H as <-. reflexivity.
Qed.

Lemma settleAll_fulfilled (outs : list settled) (schedule : list nat) :
  Forall (fun o => exists fs, outcome o = Ok fs) outs ->
  settleAll outs schedule = (flat_map (emittedAt outs) schedule, None, []).
Proof.
  intros Hall.
  induction schedule as [| i rest IH]; simpl; [reflexivity |].
  unfold emittedAt at 1.
  destruct (nth_error outs i) as [o |] eqn:Hnth; [| exact IH].
  apply nth_error_In in Hnth.
  rewrite Forall_forall in Hall. destruct (Hall o Hnth) as [fs Hfs].
  rewrite Hfs, IH. reflexivity.
Qed.

Lemma fulfilled_all (outs : list settled) (perRoot : list (list File)) :
  Forall2 (fun o fs => outcome o = Ok fs) outs perRoot ->
  fulfilled outs = perRoot.
Proof.
  unfold fulfilled.
  induction 1 as [| o fs outs perRoot Ho _ IH]; simpl; [reflexivity |].
  rewrite Ho, IH. reflexivity.
Qed.

Lemma emittedAt_in_root_order (outs : list settled) :
  flat_map (emittedAt outs) (seq 0 (List.length outs)) = flat_map emitted outs.
Proof.
  induction outs as [| o outs IH] using rev_ind; [reflexivity |].
  rewrite length_app, seq_app, !flat_map_app. f_equal.
  - rewrite <- IH, !flat_map_concat_map. f_equal.
    apply map_ext_in. intros i Hi. apply in_seq in Hi.
    unfold emittedAt. rewrite nth_error_app1 by lia. reflexivity.
  - simpl. unfold emittedAt. rewrite nth_error_app2 by lia.
    rewrite Nat.sub_diag. reflexivity.
Qed.

Lemma emitted_all (outs : list settled) (perRoot : list (list File)) :
  Forall2 (fun o fs => emitted o = map matchOf fs) outs perRoot ->
  flat_map emitted outs = map matchOf (List.concat perRoot).
Proof.
  induction 1 as [| o fs outs perRoot Ho _ IH]; simpl; [reflexivity |].
  rewrite Ho, IH, map_app. reflexivity.
Qed.

Lemma matchOf_names (files : list File) :
  map matchOf files = map Match (map toFilename files).
Proof. rewrite map_map. reflexivity. Qed.

(** C6, as amended.  When every walk fulfils, [find] answers the names of
    the per-root results concatenated in root order, whatever the order in
    which the walks settle.  The notifications are those of each walk,
    grouped by walk in the order the walks settle, followed by the terminal
    notification.  Outside directories-only mode a walk emits one match
    notification per entry of its own result, in that result's order; so
    the match notifications are a rearrangement of the final result, and
    they follow the final flattened order when the walks settle in root
    order. *)
Theorem find_fulfils_in_root_order
    (fileCreate : string -> File) (reducePaths : list string -> list string)
    (fh : FileHound) (schedule : list nat) (perRoot : list (list File)) :
  let outs := map (searchAsync fileCreate (initFilters fh))
                  (getSearchPaths reducePaths fh) in
  let run := find fileCreate reducePaths schedule fh in
  Forall2 (fun o fs => outcome o = Ok fs) outs perRoot ->
  perRoot <> [] ->
  snd (fst (fst run)) = Ok (map toFilename (List.concat perRoot))
  /\ snd (fst run) = flat_map (emittedAt outs) schedule ++ [End]
  /\ (directoriesOnly fh = false ->
      Forall2 (fun o fs => emitted o = map Match (map toFilename fs)) outs perRoot
      /\ (Permutation schedule (seq 0 (List.length outs)) ->
          Permutation (snd (fst run))
                      (map Match (map toFilename (List.concat perRoot)) ++ [End]))
      /\ (schedule = seq 0 (List.length outs) ->
          snd (fst run) = map Match (map toFilename (List.concat perRoot)) ++ [End])).
Proof.
  intros outs run Hall Hsome.
  assert (Hrun : run = (initFilters fh, Ok (map toFilename (List.concat perRoot)),
                        flat_map (emittedAt outs) schedule ++ [End],
                        flat_map steps outs)).
  { unfold run, find.
    change (getSearchPaths reducePaths (initFilters fh))
      with (getSearchPaths reducePaths fh).
    fold outs.
    rewrite settleAll_fulfilled.
    - rewrite (fulfilled_all outs perRoot Hall).
      destruct perRoot as [| first rest]; [congruence |].
      simpl. rewrite fold_flatten. reflexivity.
    - clear -Hall. induction Hall; constructor; eauto. }
  rewrite Hrun. simpl.
  split; [reflexivity | split; [reflexivity |]].
  intros Hdirs.
  assert (Hemit : Forall2 (fun o fs => emitted o = map matchOf fs) outs perRoot).
  { subst outs. clear -Hall Hdirs.
    remember (map _ _) as os eqn:Hos. revert Hos.
    generalize (getSearchPaths reducePaths fh).
    induction Hall as [| o fs os perRoot Ho _ IH]; intros dirs Hos; constructor.
    - destruct dirs as [| d dirs]; [discriminate Hos |].
      injection Hos as -> _. now apply searchAsync_emitted.
    - destruct dirs as [| d dirs]; [discriminate Hos |].
      injection Hos as _ ->. now apply (IH dirs). }
  split; [| split].
  - clear -Hemit. induction Hemit as [| o fs os perRoot Ho _ IH]; constructor.
    + now rewrite <- matchOf_names.
    + exact IH.
  - intros Hperm. apply Permutation_app_tail.
    rewrite <- matchOf_names, <- (emitted_all outs perRoot Hemit),
      <- emittedAt_in_root_order.
    now apply Permutation_flat_map.
  - intros ->.
    rewrite <- matchOf_names, <- (emitted_all outs perRoot Hemit),
      emittedAt_in_root_order. reflexivity.
Qed.

Lemma find_fulfils_in_root_order_witness :
  snd (fst (fst (find sampleFs dropNestedRoots [1; 0]%nat
                      (paths [One "/a"; One "/c"] (create "/")))))
  = Ok (map toFilename (List.concat [[a_g; a_b_f]; [c_h]])).
Proof.
  apply (find_fulfils_in_root_order sampleFs dropNestedRoots
           (paths [One "/a"; One "/c"] (create "/")) [1; 0]%nat
           [[a_g; a_b_f]; [c_h]]).
  - repeat constructor.
  - discriminate.
Defined.

(** C6, as stated, fails when the walks settle out of root order: with the
    roots [/a] and [/c] and the walk of [/c] settling first, the result
    lists the entries of [/a] before that of [/c], while the match
    notification for [/c/h.txt] comes first. *)
Lemma match_notifications_follow_settling_order :
  let run := find sampleFs dropNestedRoots [1; 0]%nat
                  (paths [One "/a"; One "/c"] (create "/")) in
  snd (fst (fst run)) = Ok ["/a/g.log"; "/a/b/f.txt"; "/c/h.txt"]
  /\ snd (fst run) = [Match "/c/h.txt"; Match "/a/g.log"; Match "/a/b/f.txt"; End]
  /\ snd (fst run) <> map Match ["/a/g.log"; "/a/b/f.txt"; "/c/h.txt"] ++ [End].
Proof.
  split; [reflexivity | split; [reflexivity |]].
  vm_compute. discriminate.
Qed.

(** ** Failure and the terminal notification *)

Lemma searchAsync_emits_matches (fileCreate : string -> File) (fh : FileHound)
    (dir : string) :
  forallb isMatchNotification (emitted (searchAsync fileCreate fh dir)) = true.
Proof.
  unfold searchAsync.
  destruct (search fh (fileCreate dir) (fileCreate dir) emptyWalk) as [[e | found] w];
    [reflexivity |].
  destruct (shouldFilterDirectory fh (fileCreate dir) (fileCreate dir) || sync fh);
    [reflexivity |].
  destruct (directoriesOnly fh); [reflexivity |].
  simpl. induction found as [| f fs IH]; [reflexivity | exact IH].
Qed.

Lemma emittedAt_matches (fileCreate : string -> File) (fh : FileHound)
    (dirs : list string) (i : nat) :
  forallb isMatchNotification
          (emittedAt (map (searchAsync fileCreate fh) dirs) i) = true.
Proof.
  unfold emittedAt.
  destruct (nth_error (map (searchAsync fileCreate fh) dirs) i) as [o |] eqn:Hnth;
    [| reflexivity].
  apply nth_error_In, in_map_iff in Hnth. destruct Hnth as [d [<- _]].
  apply searchAsync_emits_matches.
Qed.

Lemma flat_map_matches (fileCreate : string -> File) (fh : FileHound)
    (dirs : list string) (schedule : list nat) :
  forallb isMatchNotification
          (flat_map (emittedAt (map (searchAsync fileCreate fh) dirs)) schedule) = true.
Proof.
  induction schedule as [| i rest IH]; [reflexivity |].
  simpl. rewrite forallb_app, emittedAt_matches, IH. reflexivity.
Qed.

Lemma settleAll_early_matches (fileCreate : string -> File) (fh : FileHound)
    (dirs : list string) (schedule : list nat) :
  forallb isMatchNotification
          (fst (fst (settleAll (map (searchAsync fileCreate fh) dirs) schedule))) = true.
Proof.
  induction schedule as [| i rest IH]; [reflexivity |].
  simpl.
  destruct (nth_error (map (searchAsync fileCreate fh) dirs) i) as [o |] eqn:Hnth;
    [| exact IH].
  destruct (outcome o) as [e | fs]; [reflexivity |].
  destruct (settleAll _ rest) as [[ns failure] later]. simpl in *.
  rewrite forallb_app, IH, andb_true_r.
  apply nth_error_In, in_map_iff in Hnth. destruct Hnth as [d [<- _]].
  apply searchAsync_emits_matches.
Qed.

Lemma matches_hold_no_end (ns : list notification) :
  forallb isMatchNotification ns = true -> filter isEnd ns = [].
Proof.
  induction ns as [| n ns IH]; [reflexivity |].
  simpl. intros H. apply andb_true_iff in H. destruct H as [Hn Hns].
  destruct n; try discriminate Hn. simpl. now apply IH.
Qed.

(** X10.  The source's [find]: the terminal notification is emitted exactly once
    on every run; a run that rejects emits the error notification, with the
    error it rejects with, right before it; only match notifications come
    before and after that pair. *)
Theorem find_emits_end_once
    (fileCreate : string -> File) (reducePaths : list string -> list string)
    (schedule : list nat) (fh : FileHound) :
  let run := find fileCreate reducePaths schedule fh in
  List.length (filter isEnd (snd (fst run))) = 1%nat
  /\ (forall e : error,
         snd (fst (fst run)) = Err e ->
         exists early late : list notification,
           snd (fst run) = early ++ [Error e; End] ++ late
           /\ forallb isMatchNotification early = true
           /\ forallb isMatchNotification late = true)
  /\ (forall names : list string,
         snd (fst (fst run)) = Ok names ->
         exists early : list notification,
           snd (fst run) = early ++ [End]
           /\ forallb isMatchNotification early = true).
Proof.
  intros run. unfold run, find.
  change (getSearchPaths reducePaths (initFilters fh))
    with (getSearchPaths reducePaths fh).
  set (dirs := getSearchPaths reducePaths fh).
  pose proof (settleAll_early_matches fileCreate (initFilters fh) dirs schedule) as Hearly.
  destruct (settleAll (map (searchAsync fileCreate (initFilters fh)) dirs) schedule)
    as [[early failure] later].
  simpl in Hearly.
  pose proof (flat_map_matches fileCreate (initFilters fh) dirs later) as Hlate.
  destruct failure as [e |].
  - simpl. split; [| split].
    + rewrite !filter_app, (matches_hold_no_end _ Hearly). simpl.
      now rewrite (matches_hold_no_end _ Hlate).
    + intros e' H. injection H as <-. eauto.
    + discriminate.
  - destruct (reduceAll _) as [e | files]; simpl; (split; [| split]).
    + rewrite !filter_app, (matches_hold_no_end _ Hearly). reflexivity.
    + intros e' H. injection H as <-. exists early, []. auto.
    + discriminate.
    + rewrite !filter_app, (matches_hold_no_end _ Hearly). reflexivity.
    + discriminate.
    + intros names _. eauto.
Qed.

(** The source's [find] leaves the walks already started running when one
    rejects: with the roots [/a] and [/nope], which cannot be listed, and
    the walk of [/a] settling after the failure, the match notifications of
    [/a] follow the terminal notification. *)
Example find_matches_after_end :
  let run := find sampleFs dropNestedRoots [1; 0]%nat
                  (paths [One "/a"; One "/nope"] (create "/")) in
  snd (fst (fst run)) = Err (IOError "/nope")
  /\ snd (fst run) = [Error (IOError "/nope"); End;
                      Match "/a/g.log"; Match "/a/b/f.txt"].
Proof. split; reflexivity. Qed.

(** C4 on the compiled module.  With a listener attached for the error
    notification and a single root whose walk rejects, the compiled [find]
    emits the error and the terminal notification and then fulfils with
    [undefined] instead of rejecting: its [catch] block does not throw the
    error again. *)
Theorem compiled_find_swallows_error :
  findDist true [Err (IOError "/does/not/exist")] [0%nat]
  = (Ok None, [Error (IOError "/does/not/exist"); End]).
Proof. reflexivity. Qed.

(** ** The synchronous flag *)

Lemma mapSearchSync_instance (fileCreate : string -> File) (fh : FileHound)
    (dirs : list string) :
  fst (fst (mapSearchSync fileCreate fh dirs))
  = match dirs with [] => fh | _ :: _ => setSync fh end.
Proof.
  revert fh.
  induction dirs as [| d rest IH]; intros fh; [reflexivity |].
  simpl.
  pose proof (searchSync_instance fileCreate fh d) as Hinst.
  destruct (searchSync fileCreate fh d) as [[fh1 r] es]. simpl in Hinst. subst fh1.
  destruct r as [e | files]; [reflexivity |].
  specialize (IH (setSync fh)).
  destruct (mapSearchSync fileCreate (setSync fh) rest) as [[fh2 r2] es2].
  simpl in IH. subst fh2.
  destruct r2, rest; reflexivity.
Qed.

Lemma findSync_instance (fileCreate : string -> File)
    (reducePaths : list string -> list string) (fh : FileHound) :
  fst (fst (findSync fileCreate reducePaths fh))
  = match getSearchPaths reducePaths fh with
    | [] => initFilters fh
    | _ :: _ => setSync (initFilters fh)
    end.
Proof.
  unfold findSync.
  change (getSearchPaths reducePaths (initFilters fh))
    with (getSearchPaths reducePaths fh).
  rewrite <- (mapSearchSync_instance fileCreate (initFilters fh)).
  destruct (mapSearchSync fileCreate (initFilters fh) _) as [[fh1 r] es].
  destruct r as [e | perRoot]; [reflexivity |].
  destruct (reduceFlatten perRoot); reflexivity.
Qed.

Lemma find_instance (fileCreate : string -> File)
    (reducePaths : list string -> list string) (schedule : list nat) (fh : FileHound) :
  fst (fst (fst (find fileCreate reducePaths schedule fh))) = initFilters fh.
Proof.
  unfold find.
  destruct (settleAll _ schedule) as [[early failure] later].
  destruct failure; [reflexivity |].
  destruct (reduceAll _); reflexivity.
Qed.

Lemma after_keeps_sync (fileCreate : string -> File)
    (reducePaths : list string -> list string) (c : call) (fh : FileHound) :
  sync fh = true -> sync (after fileCreate reducePaths c fh) = true.
Proof.
  intros Hsync. destruct c; simpl; try exact Hsync.
  - rewrite find_instance. exact Hsync.
  - rewrite findSync_instance.
    destruct (getSearchPaths reducePaths fh); [exact Hsync | reflexivity].
Qed.

Lemma afterAll_keeps_sync (fileCreate : string -> File)
    (reducePaths : list string -> list string) (cs : list call) (fh : FileHound) :
  sync fh = true -> sync (afterAll fileCreate reducePaths cs fh) = true.
Proof.
  revert fh. unfold afterAll.
  induction cs as [| c cs IH]; intros fh Hsync; [exact Hsync |].
  simpl. apply IH. now apply after_keeps_sync.
Qed.













(** On a fresh instance [find] reads directories through the asynchronous
    listing; after a [findSync] it reads them through the synchronous one,
    and the array that [search] then answers has no [then]. *)
Example find_after_findSync :
  snd (find sampleFs dropNestedRoots [0%nat] (paths [One "/c"] (create "/")))
  = [ListAsync "/c"; Evaluate "/c/h.txt"]
  /\ snd (find sampleFs dropNestedRoots [0%nat]
               (after sampleFs dropNestedRoots CallFindSync
                      (paths [One "/c"] (create "/"))))
     = [ListSync "/c"; Evaluate "/c/h.txt"]
  /\ snd (fst (fst (find sampleFs dropNestedRoots [0%nat]
                         (after sampleFs dropNestedRoots CallFindSync
                                (paths [One "/c"] (create "/"))))))
     = Err notAFunction.
Proof. repeat split. Qed.


(** * Further properties of the walk *)

Lemma reachable_eq (fh : FileHound) (root path : File) :
  reachable fh root path =
  if shouldFilterDirectory fh root path then []
  else match getFiles path with
       | inl _ => []
       | inr files => reachableIn fh root files
       end.
Proof.
  destruct path as [n d h dr e [err | files]]; simpl; [reflexivity |].
  destruct (shouldFilterDirectory fh root _); [reflexivity |].
  unfold reachableIn.
  induction files as [| f fs IH]; simpl; [reflexivity | now rewrite IH].
Qed.

Lemma firstError_eq (fh : FileHound) (root path : File) :
  firstError fh root path =
  if shouldFilterDirectory fh root path then None
  else match getFiles path with
       | inl e => Some e
       | inr files => firstErrorIn fh root files
       end.
Proof.
  destruct path as [n d h dr e [err | files]]; simpl; [reflexivity |].
  destruct (shouldFilterDirectory fh root _); [reflexivity |].
  induction files as [| f fs IH]; simpl; [reflexivity | now rewrite IH].
Qed.

Lemma filter_twice {A : Type} (p : A -> bool) (xs : list A) :
  filter p (filter p xs) = filter p xs.
Proof. apply filter_absorb. auto. Qed.

Lemma filter_flat_map {A B : Type} (p : B -> bool) (g : A -> list B) (xs : list A) :
  filter p (flat_map g xs) = flat_map (fun x => filter p (g x)) xs.
Proof.
  induction xs as [| x xs IH]; simpl; [reflexivity |].
  now rewrite filter_app, IH.
Qed.

Lemma each_answers (fh : FileHound) (root : File) (files : list File) :
  Forall (fun f => forall w, fst (search fh root f w) = answers fh root f) files ->
  forall w,
    fst (each fh root files w) =
    match firstErrorIn fh root files with
    | Some e => Err e
    | None => Ok (map (fun f => if isDirectorySync f
                                then filter (isMatch fh) (reachable fh root f)
                                else [f]) files)
    end.
Proof.
  induction 1 as [| f fs Hf _ IH]; intros w; simpl; [reflexivity |].
  unfold visit.
  destruct (isDirectorySync f) eqn:Hdir.
  - specialize (Hf (if negb (shouldFilterDirectory fh root f) then push f w else w)).
    destruct (search fh root f _) as [r w1]. simpl in Hf. subst r.
    unfold answers.
    destruct (firstError fh root f) as [e |]; [reflexivity |].
    unfold Ok at 1. cbv iota beta.
    specialize (IH w1).
    destruct (each fh root fs w1) as [r2 w2]. simpl in IH. subst r2.
    destruct (firstErrorIn fh root fs); reflexivity.
  - specialize (IH w).
    destruct (each fh root fs w) as [r2 w2]. simpl in IH. subst r2.
    destruct (firstErrorIn fh root fs); reflexivity.
Qed.

(** The answer of the walk that [search] runs, whatever state it starts
    in: the error of the first directory, in the order of that run, that
    cannot be listed, or else the accepted candidates. *)
Lemma search_result (fh : FileHound) (root path : File) (w : walk) :
  fst (search fh root path w) =
  match firstError fh root path with
  | Some e => Err e
  | None => Ok (filter (isMatch fh) (reachable fh root path))
  end.
Proof.
  change (fst (search fh root path w) = answers fh root path).
  revert w.
  induction path as [n d h dr e err | n d h dr e files IH] using File_ind;
    intros w; unfold answers; rewrite search_eq, firstError_eq, reachable_eq;
    destruct (shouldFilterDirectory fh root _); simpl; try reflexivity.
  pose proof (each_answers fh root files IH
                (record [listEffect fh (mkFile n d h dr e (inr files))] w)) as Heach.
  destruct (each fh root files _) as [r w1]. simpl in Heach. subst r.
  destruct (firstErrorIn fh root files) as [e' |]; [reflexivity |].
  unfold Ok at 1. cbv iota beta zeta. simpl. f_equal.
  rewrite fold_flatten. simpl.
  unfold reachableIn. rewrite <- flat_map_concat_map, !filter_flat_map.
  clear. induction files as [| f fs IHfs]; simpl; [reflexivity |].
  rewrite IHfs. f_equal.
  destruct (isDirectorySync f); [apply filter_twice | reflexivity].
Qed.

(** X1.  The answer of a walk does not depend on the state it starts in.
    Whatever the listing primitive, the walk fulfils exactly when every
    directory it reaches can be listed, and it then answers the entries that
    are not directories, found below the directories the pruning rule keeps,
    that the matcher accepts, in listing order and depth first; filtering
    again at every level on the way up changes nothing.  With the
    synchronous listing a walk that fails throws the error of the first
    directory, in walk order, that cannot be listed, however deep it
    lies. *)
Theorem search_answers (fh : FileHound) (root path : File) (w : walk) :
  (forall files : list File,
      fst (search fh root path w) = Ok files <->
      firstError fh root path = None
      /\ files = filter (isMatch fh) (reachable fh root path))
  /\ (sync fh = true ->
      fst (search fh root path w) =
      match firstError fh root path with
      | Some e => Err e
      | None => Ok (filter (isMatch fh) (reachable fh root path))
      end).
Proof.
  rewrite search_result.
  split; [| intros _; reflexivity].
  intros files.
  destruct (firstError fh root path) as [e |]; split.
  - discriminate.
  - intros [H _]. discriminate H.
  - intros H. injection H as <-. split; reflexivity.
  - intros [_ ->]. reflexivity.
Qed.

Lemma search_answers_witness :
  fst (search (setSync (initFilters (create "/"))) a a emptyWalk) =
  match firstError (setSync (initFilters (create "/"))) a a with
  | Some e => Err e
  | None => Ok (filter (isMatch (setSync (initFilters (create "/"))))
                       (reachable (setSync (initFilters (create "/"))) a a))
  end.
Proof.
  apply (search_answers (setSync (initFilters (create "/"))) a a emptyWalk).
  reflexivity.
Defined.

Lemma reachable_same_rule (fh1 fh2 : FileHound) (root path : File) :
  (forall d : File, shouldFilterDirectory fh1 root d = shouldFilterDirectory fh2 root d) ->
  reachable fh1 root path = reachable fh2 root path.
Proof.
  intros Hrule.
  induction path as [n d h dr e err | n d h dr e files IH] using File_ind;
    rewrite !reachable_eq, Hrule; destruct (shouldFilterDirectory fh2 root _); simpl;
    try reflexivity.
  unfold reachableIn.
  induction IH as [| f fs Hf _ IHfs]; simpl; [reflexivity |].
  now rewrite Hf, IHfs.
Qed.

Lemma firstError_same_rule (fh1 fh2 : FileHound) (root path : File) :
  (forall d : File, shouldFilterDirectory fh1 root d = shouldFilterDirectory fh2 root d) ->
  firstError fh1 root path = firstError fh2 root path.
Proof.
  intros Hrule.
  induction path as [n d h dr e err | n d h dr e files IH] using File_ind;
    rewrite !firstError_eq, Hrule; destruct (shouldFilterDirectory fh2 root _); simpl;
    try reflexivity.
  induction IH as [| f fs Hf _ IHfs]; simpl; [reflexivity |].
  now rewrite Hf, IHfs.
Qed.

Lemma reachable_plain (fh : FileHound) (root path : File) :
  Forall (fun f => isDirectorySync f = false) (reachable fh root path).
Proof.
  induction path as [n d h dr e err | n d h dr e files IH] using File_ind;
    rewrite reachable_eq; destruct (shouldFilterDirectory fh root _); simpl;
    try constructor.
  unfold reachableIn.
  induction IH as [| f fs Hf _ IHfs]; simpl; [constructor |].
  apply Forall_app. split; [| exact IHfs].
  destruct (isDirectorySync f) eqn:Hdir; [exact Hf | now repeat constructor].
Qed.

(** The answer of [searchSync] outside directories-only mode. *)
Lemma searchSync_files (fileCreate : string -> File) (fh : FileHound) (dir : string) :
  directoriesOnly fh = false ->
  snd (fst (searchSync fileCreate fh dir))
  = answers fh (fileCreate dir) (fileCreate dir).
Proof.
  intros Hfiles. unfold searchSync.
  pose proof (search_result (setSync fh) (fileCreate dir) (fileCreate dir) emptyWalk)
    as Hwalk.
  destruct (search (setSync fh) (fileCreate dir) (fileCreate dir) emptyWalk)
    as [r w]. simpl in Hwalk. subst r.
  unfold answers.
  rewrite (firstError_same_rule (setSync fh) fh) by reflexivity.
  rewrite (reachable_same_rule (setSync fh) fh) by reflexivity.
  destruct (firstError fh (fileCreate dir) (fileCreate dir)); [reflexivity |].
  simpl. rewrite Hfiles. reflexivity.
Qed.

(** X2.  Outside directories-only mode the synchronous search of a root
    answers exactly the candidates of the walk that the matcher accepts:
    an entry is in the answer if and only if it is reachable from the root
    through kept directories and the matcher accepts it; and no entry of the
    answer is a directory. *)
Theorem searchSync_sound_and_complete
    (fileCreate : string -> File) (fh : FileHound) (dir : string) (files : list File) :
  directoriesOnly fh = false ->
  snd (fst (searchSync fileCreate fh dir)) = Ok files ->
  (forall f : File,
      In f files <->
      In f (reachable fh (fileCreate dir) (fileCreate dir)) /\ isMatch fh f = true)
  /\ Forall (fun f => isDirectorySync f = false) files.
Proof.
  intros Hfiles Hanswer.
  rewrite (searchSync_files fileCreate fh dir Hfiles) in Hanswer.
  unfold answers in Hanswer.
  destruct (firstError fh (fileCreate dir) (fileCreate dir)); [discriminate Hanswer |].
  injection Hanswer as <-.
  split.
  - intros f. apply filter_In.
  - apply Forall_forall. intros f Hin. apply filter_In in Hin.
    pose proof (reachable_plain fh (fileCreate dir) (fileCreate dir)) as Hplain.
    rewrite Forall_forall in Hplain. now apply Hplain.
Qed.

Lemma searchSync_sound_and_complete_witness :
  Forall (fun f => isDirectorySync f = false) [a_g; a_b_f].
Proof.
  apply (searchSync_sound_and_complete sampleFs (initFilters (create "/")) "/a"
           [a_g; a_b_f]); reflexivity.
Defined.

Lemma allFiles_eq (path : File) :
  allFiles path =
  match getFiles path with
  | inl _ => []
  | inr files => allFilesIn files
  end.
Proof.
  destruct path as [n d h dr e [err | files]]; simpl; [reflexivity |].
  unfold allFilesIn.
  induction files as [| f fs IH]; simpl; [reflexivity | now rewrite IH].
Qed.

Lemma never_pruned (fh : FileHound) (root d : File) :
  maxDepth fh = None -> ignoreDirs fh = false ->
  shouldFilterDirectory fh root d = false.
Proof.
  intros Hmax Hhidden. unfold shouldFilterDirectory, atMaxDepth.
  now rewrite Hmax, Hhidden.
Qed.

Lemma reachable_allFiles (fh : FileHound) (root path : File) :
  maxDepth fh = None -> ignoreDirs fh = false ->
  reachable fh root path = allFiles path.
Proof.
  intros Hmax Hhidden.
  induction path as [n d h dr e err | n d h dr e files IH] using File_ind;
    rewrite reachable_eq, allFiles_eq, (never_pruned fh root _ Hmax Hhidden); simpl;
    [reflexivity |].
  unfold reachableIn, allFilesIn.
  induction IH as [| f fs Hf _ IHfs]; simpl; [reflexivity |].
  now rewrite Hf, IHfs.
Qed.

Lemma filter_all {A : Type} (p : A -> bool) (xs : list A) :
  (forall x, p x = true) -> filter p xs = xs.
Proof.
  intros Hp. induction xs as [| x xs IH]; simpl; [reflexivity |].
  now rewrite Hp, IH.
Qed.

(** X3.  An instance with no filter, no negation, no depth limit, and
    neither directories-only mode nor hidden-directory exclusion answers,
    from [findSync], the names of the full recursive file listing of every
    searched root, root after root, provided every directory below the
    roots can be listed. *)
Theorem findSync_lists_every_file
    (fileCreate : string -> File) (reducePaths : list string -> list string)
    (fh : FileHound) :
  filters fh = [] ->
  negateFilters fh = false ->
  directoriesOnly fh = false ->
  maxDepth fh = None ->
  ignoreDirs fh = false ->
  reducePaths (searchPaths fh) <> [] ->
  Forall (fun d => firstError fh (fileCreate d) (fileCreate d) = None)
         (reducePaths (searchPaths fh)) ->
  snd (fst (findSync fileCreate reducePaths fh))
  = Ok (map getName (flat_map (fun d => allFiles (fileCreate d))
                              (reducePaths (searchPaths fh)))).
Proof.
  intros Hnone Hplain Hfiles Hmax Hhidden Hsome Hread.
  unfold findSync.
  change (getSearchPaths reducePaths (initFilters fh))
    with (getSearchPaths reducePaths fh).
  unfold getSearchPaths, copy. rewrite Hmax.
  set (roots := reducePaths (searchPaths fh)) in *.
  assert (Hroots : Forall2 (fun d fs =>
                              snd (fst (searchSync fileCreate (initFilters fh) d)) = Ok fs)
                           roots (map (fun d => allFiles (fileCreate d)) roots)).
  { clear Hsome. induction Hread as [| d ds Hd _ IH]; simpl; constructor; [| exact IH].
    rewrite searchSync_files by exact Hfiles.
    unfold answers.
    rewrite (firstError_same_rule (initFilters fh) fh) by reflexivity.
    rewrite Hd. f_equal.
    rewrite (reachable_same_rule (initFilters fh) fh) by reflexivity.
    rewrite (reachable_allFiles fh _ _ Hmax Hhidden).
    apply filter_all. intros f. simpl. unfold newMatcher.
    now rewrite Hplain, Hnone. }
  pose proof (mapSearchSync_ok fileCreate (initFilters fh) _ _ Hroots) as Hmap.
  destruct (mapSearchSync fileCreate (initFilters fh) roots) as [[fh1 r] es].
  simpl in Hmap. subst r.
  destruct roots as [| d ds]; [congruence |].
  simpl. rewrite fold_flatten, <- flat_map_concat_map. reflexivity.
Qed.

Lemma findSync_lists_every_file_witness :
  snd (fst (findSync sampleFs dropNestedRoots (paths [One "/a"; One "/c"] (create "/"))))
  = Ok (map getName (flat_map (fun d => allFiles (sampleFs d)) ["/a"; "/c"])).
Proof.
  apply (findSync_lists_every_file sampleFs dropNestedRoots
           (paths [One "/a"; One "/c"] (create "/")));
    try reflexivity.
  - discriminate.
  - repeat constructor.
Defined.

(** ** The two entry points *)

Lemma searchAsync_files (fileCreate : string -> File) (fh : FileHound) (dir : string) :
  sync fh = false ->
  directoriesOnly fh = false ->
  shouldFilterDirectory fh (fileCreate dir) (fileCreate dir) = false ->
  outcome (searchAsync fileCreate fh dir) = answers fh (fileCreate dir) (fileCreate dir).
Proof.
  intros Hasync Hfiles Hkeep. unfold searchAsync.
  pose proof (search_result fh (fileCreate dir) (fileCreate dir) emptyWalk) as Hwalk.
  destruct (search fh (fileCreate dir) (fileCreate dir) emptyWalk) as [r w].
  simpl in Hwalk. subst r. fold (answers fh (fileCreate dir) (fileCreate dir)).
  destruct (answers fh (fileCreate dir) (fileCreate dir)) as [e | files];
    [reflexivity |].
  rewrite Hkeep, Hasync, Hfiles. reflexivity.
Qed.

Lemma mapSearchSync_fulfilled (fileCreate : string -> File) (fh : FileHound)
    (dirs : list string) (perRoot : list (list File)) :
  snd (fst (mapSearchSync fileCreate fh dirs)) = Ok perRoot ->
  Forall2 (fun d fs => snd (fst (searchSync fileCreate fh d)) = Ok fs) dirs perRoot.
Proof.
  revert perRoot.
  induction dirs as [| d rest IH]; intros perRoot; simpl.
  - intros H. injection H as <-. constructor.
  - pose proof (searchSync_instance fileCreate fh d) as Hinst.
    destruct (searchSync fileCreate fh d) as [[fh1 r] es] eqn:Hsearch.
    simpl in Hinst. subst fh1.
    destruct r as [e | files]; [discriminate |].
    pose proof (mapSearchSync_setSync fileCreate fh rest) as Hsame.
    destruct (mapSearchSync fileCreate (setSync fh) rest) as [[fh2 r2] es2].
    simpl in Hsame.
    destruct r2 as [e | others]; [discriminate |].
    simpl. intros H. injection H as <-.
    constructor; [| apply IH; now rewrite <- Hsame].
    now rewrite Hsearch.
Qed.

(** X4.  On an instance whose synchronous flag is unset, outside
    directories-only mode and with no root pruned, whenever [findSync]
    answers a list of names [find] fulfils with the same list, whatever the
    order in which its walks settle. *)
Theorem find_agrees_with_findSync
    (fileCreate : string -> File) (reducePaths : list string -> list string)
    (fh : FileHound) (schedule : list nat) (names : list string) :
  sync fh = false ->
  directoriesOnly fh = false ->
  Forall (fun d => shouldFilterDirectory fh (fileCreate d) (fileCreate d) = false)
         (getSearchPaths reducePaths fh) ->
  snd (fst (findSync fileCreate reducePaths fh)) = Ok names ->
  snd (fst (fst (find fileCreate reducePaths schedule fh))) = Ok names.
Proof.
  intros Hasync Hfiles Hkeep Hsync.
  unfold findSync in Hsync. unfold find.
  change (getSearchPaths reducePaths (initFilters fh))
    with (getSearchPaths reducePaths fh) in *.
  set (dirs := getSearchPaths reducePaths fh) in *.
  pose proof (mapSearchSync_fulfilled fileCreate (initFilters fh) dirs) as Hroots.
  destruct (mapSearchSync fileCreate (initFilters fh) dirs) as [[fh1 r] es].
  simpl in Hroots.
  destruct r as [e | perRoot]; [discriminate Hsync |].
  specialize (Hroots perRoot eq_refl).
  assert (Houts : Forall2 (fun o fs => outcome o = Ok fs)
                          (map (searchAsync fileCreate (initFilters fh)) dirs) perRoot).
  { clear Hsync. induction Hroots as [| d fs ds perRoot Hd _ IH]; simpl; constructor.
    - inversion Hkeep as [| d' ds' Hd' _]; subst.
      rewrite searchAsync_files by assumption.
      rewrite searchSync_files in Hd by exact Hfiles. exact Hd.
    - apply IH. now inversion Hkeep. }
  rewrite settleAll_fulfilled.
  - rewrite (fulfilled_all _ perRoot Houts).
    destruct perRoot as [| first rest]; [discriminate Hsync |].
    simpl in *. exact Hsync.
  - clear -Houts. induction Houts; constructor; eauto.
Qed.

Lemma find_agrees_with_findSync_witness :
  snd (fst (fst (find sampleFs dropNestedRoots [1; 0]%nat
                      (paths [One "/a"; One "/c"] (create "/")))))
  = Ok ["/a/g.log"; "/a/b/f.txt"; "/c/h.txt"].
Proof.
  apply (find_agrees_with_findSync sampleFs dropNestedRoots
           (paths [One "/a"; One "/c"] (create "/")) [1; 0]%nat);
    try reflexivity.
  repeat constructor.
Defined.

Lemma mapSearchSync_steps_setSync (fileCreate : string -> File) (fh : FileHound)
    (dirs : list string) :
  snd (mapSearchSync fileCreate (setSync fh) dirs)
  = snd (mapSearchSync fileCreate fh dirs).
Proof.
  destruct dirs as [| d rest]; [reflexivity |].
  simpl. rewrite searchSync_setSync. reflexivity.
Qed.

(** X5.  [findSync] leaves the instance changed (the matcher installed, the
    synchronous flag set), yet calling it again on that instance answers
    the same result through the same steps. *)
Theorem findSync_repeatable
    (fileCreate : string -> File) (reducePaths : list string -> list string)
    (fh : FileHound) :
  let again := findSync fileCreate reducePaths
                        (fst (fst (findSync fileCreate reducePaths fh))) in
  snd (fst again) = snd (fst (findSync fileCreate reducePaths fh))
  /\ snd again = snd (findSync fileCreate reducePaths fh).
Proof.
  intros again. unfold again. rewrite findSync_instance.
  destruct (getSearchPaths reducePaths fh) eqn:Hroots; [split; reflexivity |].
  unfold findSync.
  change (getSearchPaths reducePaths (initFilters (setSync (initFilters fh))))
    with (getSearchPaths reducePaths fh).
  change (getSearchPaths reducePaths (initFilters fh))
    with (getSearchPaths reducePaths fh).
  change (initFilters (setSync (initFilters fh))) with (setSync (initFilters fh)).
  pose proof (mapSearchSync_setSync fileCreate (initFilters fh)
                (getSearchPaths reducePaths fh)) as Hr.
  pose proof (mapSearchSync_steps_setSync fileCreate (initFilters fh)
                (getSearchPaths reducePaths fh)) as He.
  destruct (mapSearchSync fileCreate (setSync (initFilters fh)) _) as [[fh1 r1] es1].
  destruct (mapSearchSync fileCreate (initFilters fh) _) as [[fh2 r2] es2].
  simpl in Hr, He. subst r2 es2.
  destruct r1 as [e | perRoot]; [split; reflexivity |].
  destruct (reduceFlatten perRoot); split; reflexivity.
Qed.

(** ** Searches that cannot fulfil *)

Lemma searchAsync_sync_rejects (fileCreate : string -> File) (fh : FileHound)
    (dir : string) :
  sync fh = true -> exists e : error, outcome (searchAsync fileCreate fh dir) = Err e.
Proof.
  intros Hsync. unfold searchAsync.
  destruct (search fh (fileCreate dir) (fileCreate dir) emptyWalk) as [[e | found] w];
    [now exists e |].
  rewrite Hsync, orb_true_r. now exists notAFunction.
Qed.

Lemma nothing_fulfilled (outs : list settled) :
  Forall (fun o => exists e, outcome o = Err e) outs ->
  fulfilled outs = [].
Proof.
  unfold fulfilled.
  induction 1 as [| o outs [e He] _ IH]; simpl; [reflexivity |].
  now rewrite He, IH.
Qed.

(** X6.  Once a [findSync] has searched a root, no later [find] on the
    instance fulfils, whatever calls come in between and whatever the order
    in which the walks settle: [search] then answers plain arrays, which
    [searchAsync] cannot chain on. *)
Theorem find_rejects_after_findSync
    (fileCreate : string -> File) (reducePaths : list string -> list string)
    (fh : FileHound) (cs : list call) (schedule : list nat) :
  getSearchPaths reducePaths fh <> [] ->
  let later := afterAll fileCreate reducePaths cs
                        (after fileCreate reducePaths CallFindSync fh) in
  (forall dir : string,
      exists e : error, outcome (searchAsync fileCreate later dir) = Err e)
  /\ exists e : error,
       snd (fst (fst (find fileCreate reducePaths schedule later))) = Err e.
Proof.
  intros Hsome later.
  assert (Hsync : sync later = true).
  { apply afterAll_keeps_sync. simpl. rewrite findSync_instance.
    destruct (getSearchPaths reducePaths fh); [congruence | reflexivity]. }
  split; [intros dir; now apply searchAsync_sync_rejects |].
  unfold find.
  change (getSearchPaths reducePaths (initFilters later))
    with (getSearchPaths reducePaths later).
  destruct (settleAll _ schedule) as [[early failure] newer].
  destruct failure as [e |]; [now exists e |].
  rewrite nothing_fulfilled; [now exists notIterable |].
  apply Forall_forall. intros o Hin. apply in_map_iff in Hin.
  destruct Hin as [d [<- _]]. now apply searchAsync_sync_rejects.
Qed.

Lemma find_rejects_after_findSync_witness :
  exists e : error,
    snd (fst (fst (find sampleFs dropNestedRoots [0%nat]
                        (afterAll sampleFs dropNestedRoots [CallDepth 3]
                                  (after sampleFs dropNestedRoots CallFindSync
                                         (paths [One "/a"] (create "/")))))))
    = Err e.
Proof.
  apply (find_rejects_after_findSync sampleFs dropNestedRoots
           (paths [One "/a"] (create "/")) [CallDepth 3] [0%nat]).
  discriminate.
Defined.

(** X7.  A root that the pruning rule rejects (a hidden root under
    hidden-directory exclusion, or any root under a negative depth limit) is
    answered differently by the two searches: the synchronous search answers
    the empty list, in either mode, while the asynchronous search rejects
    with a [TypeError]; neither lists the root. *)
Theorem pruned_root_splits_the_searches
    (fileCreate : string -> File) (fh : FileHound) (dir : string) :
  shouldFilterDirectory fh (fileCreate dir) (fileCreate dir) = true ->
  searchSync fileCreate fh dir = (setSync fh, Ok [], [])
  /\ outcome (searchAsync fileCreate fh dir) = Err notAFunction
  /\ steps (searchAsync fileCreate fh dir) = [].
Proof.
  intros Hpruned.
  unfold searchSync, searchAsync.
  rewrite (search_pruned (setSync fh) _ _ emptyWalk Hpruned).
  rewrite (search_pruned fh _ _ emptyWalk Hpruned), Hpruned. simpl.
  destruct (directoriesOnly fh); repeat split.
Qed.

Lemma pruned_root_splits_the_searches_witness :
  outcome (searchAsync sampleFs (depth (-1) (create "/")) "/a") = Err notAFunction.
Proof.
  apply (pruned_root_splits_the_searches sampleFs (depth (-1) (create "/")) "/a").
  reflexivity.
Defined.

(** ** Notifications of [find] *)

Lemma searchAsync_directories_silent (fileCreate : string -> File) (fh : FileHound)
    (dir : string) :
  directoriesOnly fh = true -> emitted (searchAsync fileCreate fh dir) = [].
Proof.
  intros Hdirs. unfold searchAsync.
  destruct (search fh (fileCreate dir) (fileCreate dir) emptyWalk) as [[e | found] w];
    [reflexivity |].
  destruct (shouldFilterDirectory fh (fileCreate dir) (fileCreate dir) || sync fh);
    [reflexivity |].
  now rewrite Hdirs.
Qed.

Lemma emittedAt_silent (outs : list settled) (schedule : list nat) :
  Forall (fun o => emitted o = []) outs ->
  flat_map (emittedAt outs) schedule = [].
Proof.
  intros Hsilent.
  induction schedule as [| i rest IH]; [reflexivity |].
  simpl. rewrite IH, app_nil_r. unfold emittedAt.
  destruct (nth_error outs i) as [o |] eqn:Hnth; [| reflexivity].
  rewrite Forall_forall in Hsilent. apply Hsilent.
  now apply nth_error_In in Hnth.
Qed.

Lemma settleAll_silent (outs : list settled) (schedule : list nat) :
  Forall (fun o => emitted o = []) outs ->
  fst (fst (settleAll outs schedule)) = [].
Proof.
  intros Hsilent.
  induction schedule as [| i rest IH]; [reflexivity |].
  simpl.
  destruct (nth_error outs i) as [o |] eqn:Hnth; [| exact IH].
  destruct (outcome o); [reflexivity |].
  destruct (settleAll outs rest) as [[ns failure] later]. simpl in *.
  rewrite IH, app_nil_r.
  rewrite Forall_forall in Hsilent. apply Hsilent.
  now apply nth_error_In in Hnth.
Qed.

(** X8.  In directories-only mode [find] emits no match notification at
    all, however many directories it answers: a run that fulfils emits the
    terminal notification alone, a run that rejects emits the error
    notification and then the terminal one. *)
Theorem find_directories_emits_no_match
    (fileCreate : string -> File) (reducePaths : list string -> list string)
    (schedule : list nat) (fh : FileHound) :
  directoriesOnly fh = true ->
  let run := find fileCreate reducePaths schedule fh in
  snd (fst run) = match snd (fst (fst run)) with
                  | inl e => [Error e; End]
                  | inr _ => [End]
                  end.
Proof.
  intros Hdirs run. unfold run, find.
  change (getSearchPaths reducePaths (initFilters fh))
    with (getSearchPaths reducePaths fh).
  set (outs := map (searchAsync fileCreate (initFilters fh))
                   (getSearchPaths reducePaths fh)).
  assert (Hsilent : Forall (fun o => emitted o = []) outs).
  { apply Forall_forall. intros o Hin. apply in_map_iff in Hin.
    destruct Hin as [d [<- _]]. now apply searchAsync_directories_silent. }
  pose proof (settleAll_silent outs schedule Hsilent) as Hearly.
  destruct (settleAll outs schedule) as [[early failure] later].
  simpl in Hearly. subst early.
  destruct failure as [e |].
  - simpl. now rewrite (emittedAt_silent outs later Hsilent).
  - destruct (reduceAll (fulfilled outs)); reflexivity.
Qed.

Lemma find_directories_emits_no_match_witness :
  snd (fst (find sampleFs dropNestedRoots [0%nat]
                 (directory (paths [One "/a"] (create "/")))))
  = match snd (fst (fst (find sampleFs dropNestedRoots [0%nat]
                              (directory (paths [One "/a"] (create "/")))))) with
    | inl e => [Error e; End]
    | inr _ => [End]
    end.
Proof.
  apply (find_directories_emits_no_match sampleFs dropNestedRoots [0%nat]
           (directory (paths [One "/a"] (create "/")))).
  reflexivity.
Defined.

Lemma settleAll_no_walk (schedule : list nat) :
  settleAll [] schedule = ([], None, []).
Proof.
  induction schedule as [| i rest IH]; [reflexivity |].
  simpl. destruct i; exact IH.
Qed.

(** X9.  With no root to search, neither entry point answers the empty
    list: [find] rejects with a [TypeError] after emitting the error and the
    terminal notification, and [findSync] throws a [TypeError]; neither
    performs a step, and [findSync] leaves the synchronous flag as it
    was. *)
Theorem no_root_is_an_error
    (fileCreate : string -> File) (reducePaths : list string -> list string)
    (schedule : list nat) (fh : FileHound) :
  getSearchPaths reducePaths fh = [] ->
  find fileCreate reducePaths schedule fh
  = (initFilters fh, Err notIterable, [Error notIterable; End], [])
  /\ findSync fileCreate reducePaths fh = (initFilters fh, Err emptyReduce, []).
Proof.
  intros Hnone. unfold find, findSync.
  change (getSearchPaths reducePaths (initFilters fh))
    with (getSearchPaths reducePaths fh).
  rewrite Hnone. simpl. rewrite settleAll_no_walk. split; reflexivity.
Qed.

Lemma no_root_is_an_error_witness :
  findSync sampleFs dropNestedRoots (paths [] (create "/"))
  = (initFilters (paths [] (create "/")), Err emptyReduce, []).
Proof.
  apply (no_root_is_an_error sampleFs dropNestedRoots [] (paths [] (create "/"))).
  reflexivity.
Defined.

Lemma find_emits_end_once_witness :
  List.length
    (filter isEnd
       (snd (fst (find sampleFs dropNestedRoots [1; 0]%nat
                       (paths [One "/a"; One "/nope"] (create "/"))))))
  = 1%nat.
Proof.
  exact (proj1 (find_emits_end_once sampleFs dropNestedRoots [1; 0]%nat
                  (paths [One "/a"; One "/nope"] (create "/")))).
Defined.

(** ** The compiled [find] *)

Lemma firstFailure_fulfilled (perRoot : list (list string)) (schedule : list nat) :
  firstFailure (map Ok perRoot) schedule = None.
Proof.
  induction schedule as [| i rest IH]; [reflexivity |].
  simpl.
  destruct (nth_error (map Ok perRoot) i) as [[e | fs] |] eqn:Hnth; try exact IH.
  apply nth_error_In, in_map_iff in Hnth. destruct Hnth as [fs [Hfs _]].
  discriminate Hfs.
Qed.

Lemma fulfilledDist_fulfilled (perRoot : list (list string)) :
  fulfilledDist (map Ok perRoot) = perRoot.
Proof.
  unfold fulfilledDist.
  induction perRoot as [| fs rest IH]; simpl; [reflexivity | now rewrite IH].
Qed.

(** X11.  When every walk fulfils and there is at least one root, the
    compiled [find] fulfils with the per-root lists concatenated in root
    order and emits exactly one match notification per entry of that result,
    in the order of the result, followed by the terminal notification;
    neither depends on the order in which the walks settle nor on whether an
    error listener is attached. *)
Theorem compiled_find_matches_in_result_order
    (errorListener : bool) (perRoot : list (list string)) (schedule : list nat) :
  perRoot <> [] ->
  findDist errorListener (map Ok perRoot) schedule
  = (Ok (Some (List.concat perRoot)), map Match (List.concat perRoot) ++ [End]).
Proof.
  intros Hsome. unfold findDist.
  rewrite firstFailure_fulfilled, fulfilledDist_fulfilled.
  destruct perRoot as [| first rest]; [congruence |].
  rewrite fold_flatten. reflexivity.
Qed.

Lemma compiled_find_matches_in_result_order_witness :
  findDist true (map Ok [["/a/g.log"]; ["/c/h.txt"]]) [1; 0]%nat
  = (Ok (Some ["/a/g.log"; "/c/h.txt"]), [Match "/a/g.log"; Match "/c/h.txt"; End]).
Proof.
  apply (compiled_find_matches_in_result_order true [["/a/g.log"]; ["/c/h.txt"]]
           [1; 0]%nat).
  discriminate.
Defined.

Lemma map_Match_no_end (names : list string) : filter isEnd (map Match names) = [].
Proof. induction names as [| n ns IH]; [reflexivity | exact IH]. Qed.

(** X12.  On every run of the compiled [find] the notifications close with
    the terminal notification, which occurs once.  With a listener attached
    for the error notification the promise never rejects: it fulfils with
    the list of matches, or with [undefined] after an error.  Without a
    listener a failure rejects with the error. *)
Theorem compiled_find_ends_once
    (errorListener : bool) (walks : list (result (list string))) (schedule : list nat) :
  (exists before : list notification,
      snd (findDist errorListener walks schedule) = before ++ [End]
      /\ filter isEnd before = [])
  /\ (errorListener = true ->
      exists value : option (list string),
        fst (findDist errorListener walks schedule) = Ok value)
  /\ (errorListener = false ->
      forall e : error,
        firstFailure walks schedule = Some e ->
        fst (findDist errorListener walks schedule) = Err e).
Proof.
  unfold findDist, caughtDist.
  destruct (firstFailure walks schedule) as [e |].
  - destruct errorListener; (split; [| split]); try discriminate.
    + now exists [Error e].
    + intros _. now exists None.
    + now exists [Error e].
    + intros _ e' H. now injection H as <-.
  - destruct (fulfilledDist walks) as [| first rest].
    + destruct errorListener; (split; [| split]); try discriminate.
      * eexists [Error _]. split; reflexivity.
      * intros _. now exists None.
      * eexists [Error _]. split; reflexivity.
    + split; [| split]; try discriminate.
      * eexists. split; [reflexivity | apply map_Match_no_end].
      * intros _. eexists. reflexivity.
Qed.

Lemma compiled_find_ends_once_witness :
  exists value : option (list string),
    fst (findDist true [Err (IOError "/nope"); Ok ["/c/h.txt"]] [0; 1]%nat) = Ok value.
Proof.
  apply (compiled_find_ends_once true [Err (IOError "/nope"); Ok ["/c/h.txt"]]
           [0; 1]%nat).
  reflexivity.
Defined.

(** ** How filters combine *)

Lemma compose_forallb (fs : list (File -> bool)) (file : File) :
  compose fs file = forallb (fun p => p file) fs.
Proof. unfold compose. now rewrite composeFrom_forallb. Qed.

Lemma isMatch_initFilters (fh : FileHound) (file : File) :
  isMatch (initFilters fh) file
  = xorb (forallb (fun p => p file) (filters fh)) (negateFilters fh).
Proof.
  simpl. unfold newMatcher, negate.
  destruct (negateFilters fh); rewrite compose_forallb.
  - now rewrite xorb_true_r.
  - now rewrite xorb_false_r.
Qed.

Lemma includes_existsb (es : list string) (x : string) :
  includes (map cleanExtension es) x
  = existsb (fun e => String.eqb x (cleanExtension e)) es.
Proof.
  unfold includes. induction es as [| e es IH]; simpl; [reflexivity | now rewrite IH].
Qed.

(** X13.  One call of [ext] with several extensions accepts a file whose
    extension is any one of them; [ext] with no extension accepts no file;
    and two chained calls of [ext] both apply, so that chaining two
    different extensions leaves a matcher that, unless negated, accepts no
    file at all. *)
Theorem ext_unites_within_a_call_and_intersects_across_calls
    (fh : FileHound) (file : File) :
  (forall es : list string,
      isMatch (initFilters (ext es fh)) file
      = xorb (forallb (fun p => p file) (filters fh)
              && existsb (fun e => String.eqb (getPathExtension file) (cleanExtension e)) es)
             (negateFilters fh))
  /\ isMatch (initFilters (ext [] fh)) file = negateFilters fh
  /\ (forall e1 e2 : string,
         cleanExtension e1 <> cleanExtension e2 ->
         isMatch (initFilters (ext [e2] (ext [e1] fh))) file = negateFilters fh).
Proof.
  assert (Hone : forall es,
             isMatch (initFilters (ext es fh)) file
             = xorb (forallb (fun p => p file) (filters fh)
                     && existsb (fun e => String.eqb (getPathExtension file)
                                                     (cleanExtension e)) es)
                    (negateFilters fh)).
  { intros es. rewrite isMatch_initFilters. simpl.
    rewrite forallb_app. simpl. now rewrite andb_true_r, includes_existsb. }
  split; [exact Hone | split].
  - rewrite Hone. simpl. now rewrite andb_false_r.
  - intros e1 e2 Hdiff. rewrite isMatch_initFilters. simpl.
    rewrite !forallb_app. simpl. unfold includes. simpl.
    rewrite !orb_false_r, !andb_true_r.
    destruct (String.eqb_spec (getPathExtension file) (cleanExtension e1)) as [H1 | H1];
      destruct (String.eqb_spec (getPathExtension file) (cleanExtension e2)) as [H2 | H2];
      try congruence;
      now rewrite ?andb_false_r.
Qed.

Lemma ext_unites_within_a_call_and_intersects_across_calls_witness :
  isMatch (initFilters (ext [".txt"] (ext ["log"] (create "/")))) a_g
  = negateFilters (create "/").
Proof.
  apply (ext_unites_within_a_call_and_intersects_across_calls (create "/") a_g).
  discriminate.
Defined.

(** X14.  The matcher depends on the filters only as a set: instances with
    the same negation flag whose filter lists hold the same predicates,
    in any order and any number of times each, accept the same entries.
    Adding a filter a second time, or adding filters in another order,
    changes nothing. *)
Theorem matcher_depends_on_the_set_of_filters (fh1 fh2 : FileHound) :
  negateFilters fh1 = negateFilters fh2 ->
  (forall p : File -> bool, In p (filters fh1) <-> In p (filters fh2)) ->
  forall file : File,
    isMatch (initFilters fh1) file = isMatch (initFilters fh2) file.
Proof.
  intros Hflag Hsame file.
  rewrite !isMatch_initFilters, Hflag. f_equal.
  apply eq_true_iff_eq. rewrite !forallb_forall.
  split; intros H p Hin; apply H; now apply Hsame.
Qed.

Lemma matcher_depends_on_the_set_of_filters_witness :
  isMatch (initFilters (addFilter isHiddenSync
                          (addFilter isDirectorySync (create "/")))) a_g
  = isMatch (initFilters (addFilter isDirectorySync
                            (addFilter isHiddenSync
                               (addFilter isDirectorySync (create "/"))))) a_g.
Proof.
  apply (matcher_depends_on_the_set_of_filters
           (addFilter isHiddenSync (addFilter isDirectorySync (create "/")))
           (addFilter isDirectorySync
              (addFilter isHiddenSync (addFilter isDirectorySync (create "/"))))).
  - reflexivity.
  - intros p. simpl. tauto.
Defined.



(** X16.  [FileHound.any] fulfils with the lists of its promises
    concatenated in argument order, whatever the order in which they
    settle; given no promise it fulfils with the empty list. *)
Theorem any_concatenates_in_argument_order
    (lists : list (list string)) (schedule : list nat) :
  any (map Ok lists) schedule = Ok (List.concat lists).
Proof.
  unfold any.
  rewrite firstFailure_fulfilled, fulfilledDist_fulfilled, fold_flatten.
  reflexivity.
Qed.

(** ** What a search returns *)

Lemma searchSync_matches (fileCreate : string -> File) (fh : FileHound)
    (dir : string) (files : list File) :
  snd (fst (searchSync fileCreate fh dir)) = Ok files ->
  Forall (fun f => isMatch fh f = true) files.
Proof.
  unfold searchSync.
  pose proof (search_result (setSync fh) (fileCreate dir) (fileCreate dir) emptyWalk)
    as Hwalk.
  destruct (search (setSync fh) (fileCreate dir) (fileCreate dir) emptyWalk)
    as [r w]. simpl in Hwalk. subst r.
  destruct (firstError (setSync fh) (fileCreate dir) (fileCreate dir));
    [discriminate |].
  unfold Ok at 1. cbv iota beta. simpl directoriesOnly. simpl isMatch.
  destruct (directoriesOnly fh); simpl; intros H; injection H as <-;
    apply Forall_forall; intros f Hin; now apply filter_In in Hin.
Qed.

(** X17.  Every entry that the synchronous search of a root answers, a file
    or, in directories-only mode, a directory, passes every filter of the
    instance when the instance is not negated, and fails at least one of
    them when it is. *)
Theorem returned_entries_pass_the_filters
    (fileCreate : string -> File) (fh : FileHound) (dir : string) (files : list File) :
  snd (fst (searchSync fileCreate (initFilters fh) dir)) = Ok files ->
  (negateFilters fh = false ->
   forall p : File -> bool, In p (filters fh) -> Forall (fun f => p f = true) files)
  /\ (negateFilters fh = true ->
      Forall (fun f => exists p : File -> bool, In p (filters fh) /\ p f = false) files).
Proof.
  intros Hanswer.
  apply searchSync_matches in Hanswer.
  rewrite Forall_forall in Hanswer.
  split; intros Hflag.
  - intros p Hp. apply Forall_forall. intros f Hin.
    specialize (Hanswer f Hin). rewrite isMatch_initFilters, Hflag, xorb_false_r in Hanswer.
    rewrite forallb_forall in Hanswer. now apply Hanswer.
  - apply Forall_forall. intros f Hin.
    specialize (Hanswer f Hin). rewrite isMatch_initFilters, Hflag, xorb_true_r in Hanswer.
    apply negb_true_iff in Hanswer.
    induction (filters fh) as [| p ps IH]; simpl in Hanswer; [discriminate Hanswer |].
    destruct (p f) eqn:Hp.
    + destruct (IH Hanswer) as [q [Hq Hqf]]. exists q. split; [now right | exact Hqf].
    + exists p. split; [now left | exact Hp].
Qed.

Lemma returned_entries_pass_the_filters_witness :
  Forall (fun f => negb (isHiddenSync f) = true) [a_g; a_b_f].
Proof.
  apply (proj1 (returned_entries_pass_the_filters sampleFs
                  (ignoreHiddenFiles (create "/")) "/a" [a_g; a_b_f] eq_refl)
               eq_refl (fun file => negb (isHiddenSync file))).
  left. reflexivity.
Defined.

(** X18.  In directories-only mode a depth limit of zero answers no
    directory at all: the directories listed in the root lie deeper than the
    limit, so none of them is recorded. *)
Theorem directories_at_depth_zero
    (fileCreate : string -> File) (fh : FileHound) (dir : string) (files : list File) :
  directoriesOnly fh = true ->
  maxDepth fh = Some 0%Z ->
  ignoreDirs fh && isHiddenSync (fileCreate dir) = false ->
  getFiles (fileCreate dir) = inr files ->
  Forall (fun f => isDirectorySync f = true ->
                   (getDepthSync (fileCreate dir) < getDepthSync f)%Z) files ->
  snd (fst (searchSync fileCreate fh dir)) = Ok [].
Proof.
  intros Hdirs Hmax Hhidden Hfiles Hdeep.
  unfold searchSync. rewrite search_eq.
  assert (Hkeep : shouldFilterDirectory (setSync fh) (fileCreate dir) (fileCreate dir)
                  = false).
  { unfold shouldFilterDirectory, atMaxDepth. simpl maxDepth. simpl ignoreDirs.
    rewrite Hmax, Hhidden, orb_false_r. apply Z.ltb_ge. lia. }
  rewrite Hkeep, Hfiles.
  rewrite (each_depth_zero (setSync fh) (fileCreate dir) files _ Hmax Hdeep).
  unfold Ok at 1. cbv iota beta zeta. simpl directoriesOnly. rewrite Hdirs.
  reflexivity.
Qed.

Lemma directories_at_depth_zero_witness :
  snd (fst (searchSync sampleFs (depth 0 (directory (create "/"))) "/a")) = Ok [].
Proof.
  apply (directories_at_depth_zero sampleFs (depth 0 (directory (create "/"))) "/a"
           [a_g; a_b]); try reflexivity.
  repeat constructor; simpl; intros; lia || discriminate.
Defined.
